(** * demoizer: resource localisation and link neutralisation

    A shallow embedding of [demoizer.py] and of the parts of the Python
    standard library it calls ([str] methods, [posixpath], [urllib.parse],
    [hashlib.md5], the [url(...)] regular expression), followed by the
    properties of the program.

    Conventions of the embedding.
    - A Python [str] is a Rocq [string]; the embedding covers text in the
      ASCII range (code points below 128), so [url.encode()] is the string
      itself, [str.lower] and [str.isalnum] are the ASCII ones.
    - The library functions follow CPython 3.11 on POSIX ([os.path] is
      [posixpath]).
    - Python exceptions are values of [exn]; a function that can raise
      returns a [result]. *)

From Stdlib Require Import String Ascii List ZArith Lia Bool Arith.
From Stdlib Require Import DecimalString.
Import ListNotations.
Open Scope list_scope.
Open Scope string_scope.

(** ** Exceptions *)

Inductive exn : Type :=
| FileNotFoundError (msg : string)
| ValueError (msg : string).

(** [str(e)] *)
Definition exn_str (e : exn) : string :=
  match e with
  | FileNotFoundError m => m
  | ValueError m => m
  end.

Inductive result (A : Type) : Type :=
| Ok (a : A)
| Raise (e : exn).
Arguments Ok {A} a.
Arguments Raise {A} e.

(** ** Python [str] methods *)

Module Str.

Definition chr (n : nat) : ascii := ascii_of_nat n.
Definition ord (c : ascii) : nat := nat_of_ascii c.

(** [s[:n]] and [s[n:]] for [0 <= n] *)
Fixpoint take (n : nat) (s : string) : string :=
  match n, s with
  | S k, String c r => String c (take k r)
  | _, _ => EmptyString
  end.

Fixpoint drop (n : nat) (s : string) : string :=
  match n, s with
  | S k, String _ r => drop k r
  | _, _ => s
  end.

(** [s.startswith(p)] *)
Fixpoint startswith (s p : string) : bool :=
  match p, s with
  | EmptyString, _ => true
  | String a p', String b s' => Ascii.eqb a b && startswith s' p'
  | String _ _, EmptyString => false
  end.

(** [s.startswith((p1, p2, ...))] *)
Definition startswith_any (s : string) (ps : list string) : bool :=
  existsb (startswith s) ps.

(** [sub in s] *)
Fixpoint contains (sub s : string) : bool :=
  match s with
  | EmptyString => startswith s sub
  | String _ r => startswith s sub || contains sub r
  end.

(** [c in s] for a single character *)
Fixpoint mem (c : ascii) (s : string) : bool :=
  match s with
  | EmptyString => false
  | String d r => Ascii.eqb c d || mem c r
  end.

(** [s.endswith(p)] *)
Definition endswith (s p : string) : bool :=
  String.eqb (drop (String.length s - String.length p) s) p
  && Nat.leb (String.length p) (String.length s).

(** [s.find(c)]; [None] stands for -1 *)
Fixpoint find (c : ascii) (s : string) : option nat :=
  match s with
  | EmptyString => None
  | String d r => if Ascii.eqb c d then Some 0 else option_map S (find c r)
  end.

(** [s.rfind(c)]; [None] stands for -1 *)
Fixpoint rfind (c : ascii) (s : string) : option nat :=
  match s with
  | EmptyString => None
  | String d r =>
      match rfind c r with
      | Some i => Some (S i)
      | None => if Ascii.eqb c d then Some 0 else None
      end
  end.

(** [s.split(sep)] for a one-character separator *)
Fixpoint split (sep : ascii) (s : string) : list string :=
  match s with
  | EmptyString => [EmptyString]
  | String c r =>
      if Ascii.eqb c sep then EmptyString :: split sep r
      else match split sep r with
           | h :: t => String c h :: t
           | [] => [String c EmptyString]
           end
  end.

(** [sep.join(l)] *)
Fixpoint join (sep : string) (l : list string) : string :=
  match l with
  | [] => EmptyString
  | [x] => x
  | x :: r => x ++ sep ++ join sep r
  end.

(** [s.partition(c)]: the text before the first [c], whether [c] was found,
    the text after it *)
Definition partition (c : ascii) (s : string) : string * bool * string :=
  match find c s with
  | Some i => (take i s, true, drop (S i) s)
  | None => (s, false, EmptyString)
  end.

(** [s.rpartition(c)[2]] *)
Definition rpartition_tail (c : ascii) (s : string) : string :=
  match rfind c s with
  | Some i => drop (S i) s
  | None => s
  end.

(** [s.lstrip(chars)] with the characters given as a predicate *)
Fixpoint lstrip (p : ascii -> bool) (s : string) : string :=
  match s with
  | EmptyString => EmptyString
  | String c r => if p c then lstrip p r else s
  end.

(** [s.rstrip(chars)] *)
Fixpoint rstrip (p : ascii -> bool) (s : string) : string :=
  match s with
  | EmptyString => EmptyString
  | String c r =>
      match rstrip p r with
      | EmptyString => if p c then EmptyString else String c EmptyString
      | r' => String c r'
      end
  end.

(** [str.isspace] on the ASCII range: TAB, LF, VT, FF, CR, FS, GS, RS, US
    and the space *)
Definition isspace (c : ascii) : bool :=
  let n := ord c in
  (Nat.leb 9 n && Nat.leb n 13) || (Nat.leb 28 n && Nat.leb n 32).

Definition isdigit (c : ascii) : bool :=
  let n := ord c in Nat.leb 48 n && Nat.leb n 57.

Definition isupper (c : ascii) : bool :=
  let n := ord c in Nat.leb 65 n && Nat.leb n 90.

Definition islower (c : ascii) : bool :=
  let n := ord c in Nat.leb 97 n && Nat.leb n 122.

Definition isalpha (c : ascii) : bool := isupper c || islower c.

Definition isalnum (c : ascii) : bool := isalpha c || isdigit c.

Definition lower_char (c : ascii) : ascii :=
  if isupper c then chr (ord c + 32) else c.

(** [s.lower()] *)
Fixpoint lower (s : string) : string :=
  match s with
  | EmptyString => EmptyString
  | String c r => String (lower_char c) (lower r)
  end.

(** [''.join(c for c in s if p(c))] *)
Fixpoint filter (p : ascii -> bool) (s : string) : string :=
  match s with
  | EmptyString => EmptyString
  | String c r => if p c then String c (filter p r) else filter p r
  end.

(** [all(p(c) for c in s)] *)
Fixpoint all (p : ascii -> bool) (s : string) : bool :=
  match s with
  | EmptyString => true
  | String c r => p c && all p r
  end.

(** [s.replace(old, new)]: every non-overlapping occurrence, leftmost first.
    [skip] counts the characters of a matched occurrence still to be
    dropped. With an empty [old], Python inserts [new] before every
    character and at the end. *)
Fixpoint replace_aux (old new s : string) (skip : nat) : string :=
  match s with
  | EmptyString => EmptyString
  | String c r =>
      match skip with
      | S k => replace_aux old new r k
      | O =>
          if startswith s old
          then new ++ replace_aux old new r (String.length old - 1)
          else String c (replace_aux old new r 0)
      end
  end.

Fixpoint intersperse (new s : string) : string :=
  match s with
  | EmptyString => new
  | String c r => new ++ String c (intersperse new r)
  end.

Definition replace (s old new : string) : string :=
  match old with
  | EmptyString => intersperse new s
  | _ => replace_aux old new s 0
  end.

(** [str(n)] for a natural number *)
Definition of_nat (n : nat) : string :=
  NilZero.string_of_uint (Nat.to_uint n).

End Str.

(** ** [os.path] on POSIX *)

Module posixpath.

Definition sep : ascii := "/"%char.
Definition is_sep (c : ascii) : bool := Ascii.eqb c sep.
Definition is_dot (c : ascii) : bool := Ascii.eqb c "."%char.

Definition nonempty (s : string) : bool := negb (String.eqb s EmptyString).

(** [basename(p)]: [p[i:]] with [i = p.rfind('/') + 1] *)
Definition basename (p : string) : string :=
  match Str.rfind sep p with
  | Some i => Str.drop (S i) p
  | None => p
  end.

(** [dirname(p)]: [p[:i]], without its trailing slashes unless it consists
    of slashes only *)
Definition dirname (p : string) : string :=
  let head := match Str.rfind sep p with
              | Some i => Str.take (S i) p
              | None => EmptyString
              end in
  if nonempty head && negb (Str.all is_sep head)
  then Str.rstrip is_sep head
  else head.

(** [splitext(p)]: the extension starts at the last dot of the last
    component, unless only dots precede it there *)
Definition splitext (p : string) : string * string :=
  match Str.rfind "."%char p with
  | None => (p, EmptyString)
  | Some d =>
      let f := match Str.rfind sep p with Some i => S i | None => 0 end in
      if Nat.leb f d && negb (Str.all is_dot (Str.take (d - f) (Str.drop f p)))
      then (Str.take d p, Str.drop d p)
      else (p, EmptyString)
  end.

(** [join(a, b)] *)
Definition join (a b : string) : string :=
  if Str.startswith b "/" then b
  else if negb (nonempty a) || Str.endswith a "/" then a ++ b
  else a ++ "/" ++ b.

(** [join] of all the components of a non-empty [l] *)
Definition join_all (l : list string) : string :=
  match l with
  | [] => EmptyString
  | a :: r => fold_left join r a
  end.

(** the loop of [normpath]; [new_comps] is kept reversed *)
Fixpoint normpath_comps (initial_slashes : nat) (comps new_comps : list string)
  : list string :=
  match comps with
  | [] => rev new_comps
  | comp :: rest =>
      if String.eqb comp EmptyString || String.eqb comp "." then
        normpath_comps initial_slashes rest new_comps
      else if negb (String.eqb comp "..")
              || (Nat.eqb initial_slashes 0
                  && match new_comps with [] => true | _ => false end)
              || match new_comps with
                 | last :: _ => String.eqb last ".."
                 | [] => false
                 end
      then normpath_comps initial_slashes rest (comp :: new_comps)
      else normpath_comps initial_slashes rest (tl new_comps)
  end.

Definition normpath (path : string) : string :=
  if String.eqb path EmptyString then "." else
  let initial_slashes :=
    if Str.startswith path "/" then
      if Str.startswith path "//" && negb (Str.startswith path "///")
      then 2 else 1
    else 0 in
  let comps := normpath_comps initial_slashes (Str.split sep path) [] in
  let p := Str.join "/" comps in
  let p := match initial_slashes with
           | 0 => p
           | 1 => "/" ++ p
           | _ => "//" ++ p
           end in
  if String.eqb p EmptyString then "." else p.

(** [abspath(path)] in the working directory [cwd] *)
Definition abspath (cwd path : string) : string :=
  normpath (if Str.startswith path "/" then path else join cwd path).

(** [len(commonprefix([l1, l2]))] for two lists of components *)
Fixpoint commonprefix_len (l1 l2 : list string) : nat :=
  match l1, l2 with
  | a :: r1, b :: r2 =>
      if String.eqb a b then S (commonprefix_len r1 r2) else 0
  | _, _ => 0
  end.

(** [relpath(path, start)] in the working directory [cwd] *)
Definition relpath (cwd path start : string) : result string :=
  if String.eqb path EmptyString then Raise (ValueError "no path specified")
  else
    let start_list := List.filter nonempty (Str.split sep (abspath cwd start)) in
    let path_list := List.filter nonempty (Str.split sep (abspath cwd path)) in
    let i := commonprefix_len start_list path_list in
    let rel_list :=
      (repeat ".." (List.length start_list - i) ++ skipn i path_list)%list in
    match rel_list with
    | [] => Ok "."
    | _ => Ok (join_all rel_list)
    end.

End posixpath.

(** ** [urllib.parse] *)

Module urllib.

Record ParseResult : Type := mkParseResult {
  scheme : string;
  netloc : string;
  path : string;
  params : string;
  query : string;
  fragment : string
}.

Definition uses_relative : list string :=
  [EmptyString; "ftp"; "http"; "gopher"; "nntp"; "imap";
   "wais"; "file"; "https"; "shttp"; "mms";
   "prospero"; "rtsp"; "rtspu"; "sftp";
   "svn"; "svn+ssh"; "ws"; "wss"].

Definition uses_netloc : list string :=
  [EmptyString; "ftp"; "http"; "gopher"; "nntp"; "telnet";
   "imap"; "wais"; "file"; "mms"; "https"; "shttp";
   "snews"; "prospero"; "rtsp"; "rtspu"; "rsync";
   "svn"; "svn+ssh"; "sftp"; "nfs"; "git"; "git+ssh";
   "ws"; "wss"].

Definition uses_params : list string :=
  [EmptyString; "ftp"; "hdl"; "prospero"; "http"; "imap";
   "https"; "shttp"; "rtsp"; "rtspu"; "sip"; "sips";
   "mms"; "sftp"; "tel"].

Definition str_in (s : string) (l : list string) : bool :=
  existsb (String.eqb s) l.

Definition scheme_char (c : ascii) : bool :=
  Str.isalnum c || Str.mem c "+-.".

(** [_WHATWG_C0_CONTROL_OR_SPACE] *)
Definition c0_control_or_space (c : ascii) : bool := Nat.leb (Str.ord c) 32.

(** [_UNSAFE_URL_BYTES_TO_REMOVE]: TAB, CR, LF *)
Definition unsafe_url_byte (c : ascii) : bool :=
  let n := Str.ord c in Nat.eqb n 9 || Nat.eqb n 13 || Nat.eqb n 10.

Definition remove_unsafe (s : string) : string :=
  Str.filter (fun c => negb (unsafe_url_byte c)) s.

(** index of the first character of [s] satisfying [p], or the length *)
Fixpoint find_first (p : ascii -> bool) (s : string) : nat :=
  match s with
  | EmptyString => 0
  | String c r => if p c then 0 else S (find_first p r)
  end.

(** [_splitnetloc(url, 2)] *)
Definition splitnetloc2 (url : string) : string * string :=
  let u := Str.drop 2 url in
  let delim := find_first (fun c => Str.mem c "/?#") u in
  (Str.take delim u, Str.drop delim u).

(** [_check_bracketed_host]: the check of the bracketed host with the
    [ipaddress] module is outside the embedding; every host is accepted. *)
Definition check_bracketed_host (hostname : string) : result unit := Ok tt.

Definition check_bracketed_netloc (netloc : string) : result unit :=
  let hostname_and_port := Str.rpartition_tail "@"%char netloc in
  let '(before_bracket, have_open_br, bracketed) :=
    Str.partition "["%char hostname_and_port in
  if have_open_br then
    if posixpath.nonempty before_bracket then Raise (ValueError "Invalid IPv6 URL")
    else
      let '(hostname, _, port) := Str.partition "]"%char bracketed in
      if posixpath.nonempty port && negb (Str.startswith port ":")
      then Raise (ValueError "Invalid IPv6 URL")
      else check_bracketed_host hostname
  else
    let '(hostname, _, _) := Str.partition ":"%char hostname_and_port in
    check_bracketed_host hostname.

(** [url.split(c, 1)] when [c in url]; otherwise the text and the default *)
Definition split_once (c : ascii) (url dflt : string) : string * string :=
  match Str.find c url with
  | Some i => (Str.take i url, Str.drop (S i) url)
  | None => (url, dflt)
  end.

(** [urlsplit(url, scheme)]: scheme, netloc, path, query, fragment *)
Definition urlsplit (url scheme : string)
  : result (string * string * string * string * string) :=
  let url := Str.lstrip c0_control_or_space url in
  let scheme :=
    Str.rstrip c0_control_or_space (Str.lstrip c0_control_or_space scheme) in
  let url := remove_unsafe url in
  let scheme := remove_unsafe scheme in
  let '(scheme, url) :=
    match Str.find ":"%char url, url with
    | Some (S i), String c0 _ =>
        if Str.isalpha c0 && Str.all scheme_char (Str.take (S i) url)
        then (Str.lower (Str.take (S i) url), Str.drop (S (S i)) url)
        else (scheme, url)
    | _, _ => (scheme, url)
    end in
  let after_netloc :=
    if String.eqb (Str.take 2 url) "//" then
      let '(netloc, rest) := splitnetloc2 url in
      let lb := Str.mem "["%char netloc in
      let rb := Str.mem "]"%char netloc in
      if (lb && negb rb) || (rb && negb lb)
      then Raise (ValueError "Invalid IPv6 URL")
      else if lb && rb then
        match check_bracketed_netloc netloc with
        | Ok _ => Ok (netloc, rest)
        | Raise e => Raise e
        end
      else Ok (netloc, rest)
    else Ok (EmptyString, url) in
  match after_netloc with
  | Raise e => Raise e
  | Ok (netloc, url) =>
      let '(url, fragment) := split_once "#"%char url EmptyString in
      let '(url, query) := split_once "?"%char url EmptyString in
      Ok (scheme, netloc, url, query, fragment)
  end.

(** [_splitparams(url)] *)
Definition splitparams (url : string) : string * string :=
  match Str.rfind "/"%char url with
  | Some s =>
      match Str.find ";"%char (Str.drop s url) with
      | Some j => (Str.take (s + j) url, Str.drop (S (s + j)) url)
      | None => (url, EmptyString)
      end
  | None =>
      match Str.find ";"%char url with
      | Some i => (Str.take i url, Str.drop (S i) url)
      | None => (url, EmptyString)
      end
  end.

(** [urlparse(url, scheme)] *)
Definition urlparse (url scheme : string) : result ParseResult :=
  match urlsplit url scheme with
  | Raise e => Raise e
  | Ok (scheme, netloc, url, query, fragment) =>
      let '(url, params) :=
        if str_in scheme uses_params && Str.mem ";"%char url
        then splitparams url
        else (url, EmptyString) in
      Ok (mkParseResult scheme netloc url params query fragment)
  end.

(** [urlunsplit((scheme, netloc, url, query, fragment))] *)
Definition urlunsplit (scheme netloc url query fragment : string) : string :=
  let url :=
    if posixpath.nonempty netloc
       || (posixpath.nonempty scheme && str_in scheme uses_netloc
           && negb (String.eqb (Str.take 2 url) "//"))
    then
      let url := if posixpath.nonempty url
                    && negb (String.eqb (Str.take 1 url) "/")
                 then "/" ++ url else url in
      "//" ++ netloc ++ url
    else url in
  let url := if posixpath.nonempty scheme then scheme ++ ":" ++ url else url in
  let url := if posixpath.nonempty query then url ++ "?" ++ query else url in
  if posixpath.nonempty fragment then url ++ "#" ++ fragment else url.

(** [urlunparse(components)] *)
Definition urlunparse (r : ParseResult) : string :=
  let url := if posixpath.nonempty (params r)
             then path r ++ ";" ++ params r else path r in
  urlunsplit (scheme r) (netloc r) url (query r) (fragment r).

(** [segments[1:-1] = filter(None, segments[1:-1])] *)
Definition filter_middle (segments : list string) : list string :=
  match segments with
  | [] => []
  | h :: t =>
      match t with
      | [] => [h]
      | _ => h :: (List.filter posixpath.nonempty (removelast t)
                     ++ [last t EmptyString])%list
      end
  end.

(** the loop over [segments] of [urljoin]; [resolved_path] is kept reversed *)
Fixpoint resolve_segments (segments resolved_path : list string) : list string :=
  match segments with
  | [] => rev resolved_path
  | seg :: rest =>
      if String.eqb seg ".." then resolve_segments rest (tl resolved_path)
      else if String.eqb seg "." then resolve_segments rest resolved_path
      else resolve_segments rest (seg :: resolved_path)
  end.

(** [urljoin(base, url)] *)
Definition urljoin (base url : string) : result string :=
  if negb (posixpath.nonempty base) then Ok url
  else if negb (posixpath.nonempty url) then Ok base
  else
    match urlparse base EmptyString with
    | Raise e => Raise e
    | Ok b =>
        match urlparse url (scheme b) with
        | Raise e => Raise e
        | Ok u =>
            if negb (String.eqb (scheme u) (scheme b))
               || negb (str_in (scheme u) uses_relative)
            then Ok url
            else if str_in (scheme u) uses_netloc && posixpath.nonempty (netloc u)
            then Ok (urlunparse u)
            else
              let netloc' := if str_in (scheme u) uses_netloc
                             then netloc b else netloc u in
              if negb (posixpath.nonempty (path u))
                 && negb (posixpath.nonempty (params u))
              then
                let query' := if posixpath.nonempty (query u)
                              then query u else query b in
                Ok (urlunparse (mkParseResult (scheme u) netloc' (path b)
                                  (params b) query' (fragment u)))
              else
                let base_parts := Str.split "/"%char (path b) in
                let base_parts :=
                  if posixpath.nonempty (last base_parts EmptyString)
                  then removelast base_parts else base_parts in
                let segments :=
                  if String.eqb (Str.take 1 (path u)) "/"
                  then Str.split "/"%char (path u)
                  else filter_middle
                         (base_parts ++ Str.split "/"%char (path u))%list in
                let resolved_path := resolve_segments segments [] in
                let resolved_path :=
                  if str_in (last segments EmptyString) ["."; ".."]
                  then (resolved_path ++ [EmptyString])%list else resolved_path in
                let joined := Str.join "/" resolved_path in
                Ok (urlunparse (mkParseResult (scheme u) netloc'
                                  (if posixpath.nonempty joined then joined else "/")
                                  (params u) (query u) (fragment u)))
        end
    end.

End urllib.

(** ** [hashlib.md5] (RFC 1321) on 32-bit words held in [Z] *)

Module hashlib.

Local Open Scope Z_scope.

Definition mask32 : Z := 0xffffffff.

(** addition modulo 2^32 *)
Definition add32 (a b : Z) : Z := Z.land (a + b) mask32.

Definition not32 (a : Z) : Z := Z.lxor a mask32.

Definition leftrotate (x c : Z) : Z :=
  Z.land (Z.lor (Z.shiftl x c) (Z.shiftr x (32 - c))) mask32.

(** per-round shift amounts *)
Definition shifts : list Z :=
  [7; 12; 17; 22; 7; 12; 17; 22; 7; 12; 17; 22; 7; 12; 17; 22;
   5; 9; 14; 20; 5; 9; 14; 20; 5; 9; 14; 20; 5; 9; 14; 20;
   4; 11; 16; 23; 4; 11; 16; 23; 4; 11; 16; 23; 4; 11; 16; 23;
   6; 10; 15; 21; 6; 10; 15; 21; 6; 10; 15; 21; 6; 10; 15; 21].

(** [floor(2^32 * abs(sin(i + 1)))] for [i] from 0 to 63 *)
Definition sines : list Z :=
  [0xd76aa478; 0xe8c7b756; 0x242070db; 0xc1bdceee;
   0xf57c0faf; 0x4787c62a; 0xa8304613; 0xfd469501;
   0x698098d8; 0x8b44f7af; 0xffff5bb1; 0x895cd7be;
   0x6b901122; 0xfd987193; 0xa679438e; 0x49b40821;
   0xf61e2562; 0xc040b340; 0x265e5a51; 0xe9b6c7aa;
   0xd62f105d; 0x02441453; 0xd8a1e681; 0xe7d3fbc8;
   0x21e1cde6; 0xc33707d6; 0xf4d50d87; 0x455a14ed;
   0xa9e3e905; 0xfcefa3f8; 0x676f02d9; 0x8d2a4c8a;
   0xfffa3942; 0x8771f681; 0x6d9d6122; 0xfde5380c;
   0xa4beea44; 0x4bdecfa9; 0xf6bb4b60; 0xbebfbc70;
   0x289b7ec6; 0xeaa127fa; 0xd4ef3085; 0x04881d05;
   0xd9d4d039; 0xe6db99e5; 0x1fa27cf8; 0xc4ac5665;
   0xf4292244; 0x432aff97; 0xab9423a7; 0xfc93a039;
   0x655b59c3; 0x8f0ccc92; 0xffeff47d; 0x85845dd1;
   0x6fa87e4f; 0xfe2ce6e0; 0xa3014314; 0x4e0811a1;
   0xf7537e82; 0xbd3af235; 0x2ad7d2bb; 0xeb86d391].

Record state : Type := mkState { sa : Z; sb : Z; sc : Z; sd : Z }.

Definition init : state :=
  mkState 0x67452301 0xefcdab89 0x98badcfe 0x10325476.

(** the little-endian 32-bit word at byte offset [4 * j] of a chunk *)
Definition word_at (chunk : list Z) (j : nat) : Z :=
  let b k := nth (4 * j + k) chunk 0 in
  Z.lor (b 0%nat)
    (Z.lor (Z.shiftl (b 1%nat) 8)
       (Z.lor (Z.shiftl (b 2%nat) 16) (Z.shiftl (b 3%nat) 24))).

(** one of the 64 operations on a chunk *)
Definition step (chunk : list Z) (st : state) (i : nat) : state :=
  let '(mkState a b c d) := st in
  let '(f, g) :=
    if Nat.ltb i 16 then
      (Z.lor (Z.land b c) (Z.land (not32 b) d), i)
    else if Nat.ltb i 32 then
      (Z.lor (Z.land d b) (Z.land (not32 d) c), ((5 * i + 1) mod 16)%nat)
    else if Nat.ltb i 48 then
      (Z.lxor b (Z.lxor c d), ((3 * i + 5) mod 16)%nat)
    else
      (Z.lxor c (Z.lor b (not32 d)), ((7 * i) mod 16)%nat) in
  let f := add32 (add32 (add32 f a) (nth i sines 0)) (word_at chunk g) in
  mkState d (add32 b (leftrotate f (nth i shifts 0))) b c.

Definition process_chunk (chunk : list Z) (st : state) : state :=
  let r := fold_left (step chunk) (seq 0 64) st in
  mkState (add32 (sa st) (sa r)) (add32 (sb st) (sb r))
          (add32 (sc st) (sc r)) (add32 (sd st) (sd r)).

Fixpoint process_chunks (n : nat) (bytes : list Z) (st : state) : state :=
  match n with
  | O => st
  | S k => process_chunks k (skipn 64 bytes) (process_chunk (firstn 64 bytes) st)
  end.

(** the [k] low bytes of [n], least significant first *)
Fixpoint le_bytes (k : nat) (n : Z) : list Z :=
  match k with
  | O => []
  | S k' => Z.land n 0xff :: le_bytes k' (Z.shiftr n 8)
  end.

(** the message followed by the bit 1, zeros up to 56 modulo 64, and the
    length in bits as a 64-bit little-endian number *)
Definition pad (msg : list Z) : list Z :=
  let len := List.length msg in
  let r := ((len + 1) mod 64)%nat in
  let zeros := if Nat.leb r 56 then (56 - r)%nat else (120 - r)%nat in
  (msg ++ 0x80 :: repeat 0 zeros ++ le_bytes 8 (8 * Z.of_nat len))%list.

Definition digest_state (msg : list Z) : state :=
  let p := pad msg in
  process_chunks (List.length p / 64) p init.

Definition hex_digit (n : Z) : ascii :=
  if n <? 10 then Str.chr (Z.to_nat (48 + n)) else Str.chr (Z.to_nat (87 + n)).

Definition hex_byte (b : Z) (rest : string) : string :=
  String (hex_digit (Z.land (Z.shiftr b 4) 0xf))
    (String (hex_digit (Z.land b 0xf)) rest).

(** the eight hexadecimal digits of the four bytes of a word, least
    significant byte first *)
Definition hex_word (w : Z) (rest : string) : string :=
  hex_byte (Z.land w 0xff)
    (hex_byte (Z.land (Z.shiftr w 8) 0xff)
       (hex_byte (Z.land (Z.shiftr w 16) 0xff)
          (hex_byte (Z.land (Z.shiftr w 24) 0xff) rest))).

Definition bytes_of_string (s : string) : list Z :=
  map (fun c => Z.of_nat (Str.ord c)) (list_ascii_of_string s).

(** [hashlib.md5(s.encode()).hexdigest()] *)
Definition md5_hexdigest (s : string) : string :=
  let st := digest_state (bytes_of_string s) in
  hex_word (sa st) (hex_word (sb st) (hex_word (sc st)
    (hex_word (sd st) EmptyString))).

End hashlib.

(** ** The filename synthesizer: [create_local_filename] *)

(** [any(keyword in s for keyword in keywords)] *)
Definition any_keyword_in (keywords : list string) (s : string) : bool :=
  existsb (fun keyword => Str.contains keyword s) keywords.

(** the file name before it is made safe: the last segment of the path of
    the URL, the special cases of the bundled resources, and the guessed
    extension when the name has no dot *)
Definition raw_filename (url : string) : result string :=
  match urllib.urlparse url EmptyString with
  | Raise e => Raise e
  | Ok parsed =>
      let path := urllib.path parsed in
      let filename :=
        if String.eqb path EmptyString || String.eqb path "/" then
          Str.replace (urllib.netloc parsed) "." "_" ++ ".html"
        else
          let filename := posixpath.basename path in
          if String.eqb filename EmptyString
          then posixpath.basename (posixpath.dirname path) ++ ".html"
          else filename in
      let filename :=
        if Str.contains "xjs" path && Str.contains "_/ss/" path then
          "google_bundle_styles.css"
        else if Str.contains "xjs" path && Str.contains "_/js/" path then
          "google_bundle_scripts.js"
        else if Str.contains "/images/" path then
          if negb (Str.contains "." filename) then filename ++ ".png"
          else filename
        else filename in
      let filename :=
        if negb (Str.contains "." filename) then
          if any_keyword_in ["css"; "style"; "/ss/"] (Str.lower url) then
            filename ++ ".css"
          else if any_keyword_in ["js"; "script"; "/js/"] (Str.lower url) then
            filename ++ ".js"
          else if any_keyword_in ["font"; "woff"; "ttf"] (Str.lower url) then
            filename ++ ".woff2"
          else if any_keyword_in ["png"; "jpg"; "jpeg"; "gif"; "svg"; "webp"]
                    (Str.lower url) then
            filename ++ ".png"
          else filename ++ ".html"
        else filename in
      Ok filename
  end.

Definition safe_char (c : ascii) : bool := Str.isalnum c || Str.mem c ".-_".

(** [name, ext = os.path.splitext(filename)] for the file name made safe
    for the file system *)
Definition filename_stem (url : string) : result (string * string) :=
  match raw_filename url with
  | Raise e => Raise e
  | Ok filename =>
      let filename := Str.rstrip Str.isspace (Str.filter safe_char filename) in
      Ok (posixpath.splitext filename)
  end.

(** [hashlib.md5(url.encode()).hexdigest()[:8]] *)
Definition url_hash (url : string) : string :=
  Str.take 8 (hashlib.md5_hexdigest url).

Definition create_local_filename (url resources_dir : string) : result string :=
  match filename_stem url with
  | Raise e => Raise e
  | Ok (name, ext) =>
      let safe_filename := name ++ "_" ++ url_hash url ++ ext in
      Ok (posixpath.join resources_dir safe_filename)
  end.

(** ** Python dictionaries

    A [dict] keeps its keys in insertion order; assigning to a key that is
    present keeps its position. The attributes of an element and the
    download cache are such dictionaries from strings to strings. *)

Module Dict.

Definition t : Type := list (string * string).

Fixpoint get (k : string) (d : t) : option string :=
  match d with
  | [] => None
  | (k', v) :: r => if String.eqb k k' then Some v else get k r
  end.

(** [k in d] *)
Definition mem (k : string) (d : t) : bool :=
  match get k d with Some _ => true | None => false end.

(** [d[k] = v] *)
Fixpoint set (k v : string) (d : t) : t :=
  match d with
  | [] => [(k, v)]
  | (k', v') :: r =>
      if String.eqb k k' then (k', v) :: r else (k', v') :: set k v r
  end.

(** [del d[k]] *)
Definition del (k : string) (d : t) : t :=
  List.filter (fun kv => negb (String.eqb k (fst kv))) d.

End Dict.

(** ** The document tree

    The tree that [BeautifulSoup(html, "html.parser")] builds: text nodes and
    elements with a name, a dictionary of attributes and children. The value
    of a multi-valued attribute such as [rel] is held as its words joined by
    one space, which is the text a selector compares. As the parser builds
    it, the content of a [style] or [script] element is text only. *)

#[local] Set Warnings "-register-all".

Inductive node : Type :=
| Text (s : string)
| Tag (name : string) (attrs : Dict.t) (children : list node).

Definition document : Type := list node.

(** An element is designated by its path: the index of each ancestor among
    its siblings, from the root down to the element itself. *)
Definition path : Type := list nat.

Fixpoint get_node (doc : list node) (p : path) : option node :=
  match p with
  | [] => None
  | i :: q =>
      match nth_error doc i with
      | None => None
      | Some n =>
          match q with
          | [] => Some n
          | _ => match n with
                 | Tag _ _ kids => get_node kids q
                 | Text _ => None
                 end
          end
      end
  end.

Fixpoint map_nth {A : Type} (i : nat) (f : A -> A) (l : list A) : list A :=
  match l, i with
  | [], _ => []
  | x :: r, O => f x :: r
  | x :: r, S j => x :: map_nth j f r
  end.

(** the tree with [f] applied to the node at path [p] *)
Fixpoint update_node (doc : list node) (p : path) (f : node -> node)
  : list node :=
  match p with
  | [] => doc
  | i :: q =>
      map_nth i
        (fun n =>
           match q with
           | [] => f n
           | _ => match n with
                  | Tag name attrs kids => Tag name attrs (update_node kids q f)
                  | Text s => Text s
                  end
           end) doc
  end.

(** [element[attr] = value] *)
Definition set_attr (attr value : string) (n : node) : node :=
  match n with
  | Tag name attrs kids => Tag name (Dict.set attr value attrs) kids
  | Text s => Text s
  end.

(** [tag.string = value]: the children are replaced by one text node *)
Definition set_string (value : string) (n : node) : node :=
  match n with
  | Tag name attrs _ => Tag name attrs [Text value]
  | Text s => Text s
  end.

(** [tag.string]: the text of the only child, looked for through only
    children that are elements; [None] otherwise *)
Fixpoint node_string (n : node) : option string :=
  match n with
  | Text s => Some s
  | Tag _ _ [k] => node_string k
  | Tag _ _ _ => None
  end.

(** [tag.string] of an element *)
Definition tag_string (n : node) : option string :=
  match n with
  | Tag _ _ [k] => node_string k
  | _ => None
  end.

(** the nodes of a tree in document order, each with its path *)
Fixpoint node_descendants (p : path) (n : node) : list (path * node) :=
  (p, n) ::
  match n with
  | Text _ => []
  | Tag _ _ kids =>
      (fix forest (i : nat) (l : list node) : list (path * node) :=
         match l with
         | [] => []
         | k :: r => (node_descendants (p ++ [i]) k ++ forest (S i) r)%list
         end) 0 kids
  end.

Fixpoint forest_descendants (p : path) (i : nat) (l : list node)
  : list (path * node) :=
  match l with
  | [] => []
  | k :: r => (node_descendants (p ++ [i]) k ++ forest_descendants p (S i) r)%list
  end.

Definition descendants (doc : document) : list (path * node) :=
  forest_descendants [] 0 doc.

(** *** Selectors

    The selectors of the program have the form [name] or
    [name[attribute="value"]]. *)

Record selector : Type := mkSelector {
  sel_name : string;
  sel_attr : option (string * string)
}.

Definition matches (sel : selector) (n : node) : bool :=
  match n with
  | Text _ => false
  | Tag name attrs _ =>
      String.eqb name (sel_name sel)
      && match sel_attr sel with
         | None => true
         | Some (k, v) =>
             match Dict.get k attrs with
             | Some v' => String.eqb v' v
             | None => false
             end
         end
  end.

(** the paths of the nodes that satisfy [f], in document order *)
Definition find_paths (f : node -> bool) (doc : document) : list path :=
  map fst (List.filter (fun pn => f (snd pn)) (descendants doc)).

(** [soup.select(selector)] *)
Definition select (sel : selector) (doc : document) : list path :=
  find_paths (matches sel) doc.

Definition is_tag (name : string) (n : node) : bool :=
  match n with
  | Tag name' _ _ => String.eqb name' name
  | Text _ => false
  end.

Definition has_attr (attr : string) (n : node) : bool :=
  match n with
  | Tag _ attrs _ => Dict.mem attr attrs
  | Text _ => false
  end.

(** ** The [url(...)] pattern

    The regular expression of the program, applied with [re.findall]: the
    text [url(], an optional quote (single or double), the longest run of
    characters other than quotes, the closing parenthesis and white space,
    an optional quote and the closing parenthesis. The run is the only place
    where the match could backtrack, and a shorter run is followed by a
    character of the run, never by a quote or the parenthesis, so the
    longest run decides. *)

Definition is_quote (c : ascii) : bool :=
  Nat.eqb (Str.ord c) 34 || Nat.eqb (Str.ord c) 39.

Definition url_char (c : ascii) : bool :=
  negb (is_quote c || Ascii.eqb c ")"%char || Str.isspace c).

Fixpoint take_while (p : ascii -> bool) (s : string) : string :=
  match s with
  | EmptyString => EmptyString
  | String c r => if p c then String c (take_while p r) else EmptyString
  end.

Definition skip_quote (s : string) : string * nat :=
  match s with
  | String c r => if is_quote c then (r, 1) else (s, 0)
  | EmptyString => (s, 0)
  end.

(** the match of the pattern at the start of [s]: the group and the length
    of the match *)
Definition match_url_at (s : string) : option (string * nat) :=
  if Str.startswith s "url(" then
    let '(r1, q1) := skip_quote (Str.drop 4 s) in
    let g := take_while url_char r1 in
    if String.eqb g EmptyString then None
    else
      let '(r2, q2) := skip_quote (Str.drop (String.length g) r1) in
      if Str.startswith r2 ")"
      then Some (g, 4 + q1 + String.length g + q2 + 1)
      else None
  else None.

(** the groups of the successive matches; [skip] counts the characters of
    the last match still to be passed *)
Fixpoint findall_url_aux (s : string) (skip : nat) : list string :=
  match s with
  | EmptyString => []
  | String _ r =>
      match skip with
      | S k => findall_url_aux r k
      | O =>
          match match_url_at s with
          | Some (g, len) => g :: findall_url_aux r (len - 1)
          | None => findall_url_aux r 0
          end
      end
  end.

Definition findall_url (s : string) : list string := findall_url_aux s 0.

(** ** The state of a run

    The file system, the network and the console, and the two objects that
    [process_html_file] mutates in place: the parsed document and the
    dictionary of downloaded resources. Files are held under their absolute
    normalised path; directories are not represented, so writing a file
    always succeeds. The reply of the network to a request may depend on how
    many requests were made before it. *)

Inductive reply : Type :=
| Body (content : string)
| Failure (msg : string).

Record State : Type := mkState {
  cwd : string;
  files : Dict.t;
  server : nat -> string -> reply;
  requests : list string;
  stdout : list string;
  soup : document;
  downloaded_resources : Dict.t
}.

(** a computation that returns a value or raises an exception, and leaves a
    state in both cases *)
Inductive outcome (A : Type) : Type :=
| Return (a : A) (st : State)
| Throw (e : exn) (st : State).
Arguments Return {A} a st.
Arguments Throw {A} e st.

Definition Py (A : Type) : Type := State -> outcome A.

Definition ret {A : Type} (a : A) : Py A := fun st => Return a st.

Definition bind {A B : Type} (c : Py A) (k : A -> Py B) : Py B :=
  fun st =>
    match c st with
    | Return a st' => k a st'
    | Throw e st' => Throw e st'
    end.

Declare Scope py_scope.
Delimit Scope py_scope with py.
Notation "x <- c ;; k" := (bind c (fun x => k))
  (at level 61, c at next level, right associativity) : py_scope.
Notation "c ;; k" := (bind c (fun _ => k))
  (at level 61, right associativity) : py_scope.
Open Scope py_scope.

Definition raise {A : Type} (e : exn) : Py A := fun st => Throw e st.

(** the value or the exception of a library function *)
Definition lift {A : Type} (r : result A) : Py A :=
  match r with
  | Ok a => ret a
  | Raise e => raise e
  end.

(** [try: body / except Exception as e: handler(e)] *)
Definition try_except {A : Type} (body : Py A) (handler : exn -> Py A) : Py A :=
  fun st =>
    match body st with
    | Return a st' => Return a st'
    | Throw e st' => handler e st'
    end.

(** [for x in l: body(x)] *)
Fixpoint for_each {A : Type} (l : list A) (body : A -> Py unit) : Py unit :=
  match l with
  | [] => ret tt
  | x :: r => body x ;; for_each r body
  end.

(** [for x in l: acc = body(acc, x)] for a local variable [acc] *)
Fixpoint for_fold {A B : Type} (l : list A) (body : B -> A -> Py B) (acc : B)
  : Py B :=
  match l with
  | [] => ret acc
  | x :: r => acc' <- body acc x ;; for_fold r body acc'
  end.

Definition get_state : Py State := fun st => Return st st.

Definition print (line : string) : Py unit :=
  fun st =>
    Return tt (mkState (cwd st) (files st) (server st) (requests st)
                 (stdout st ++ [line])%list (soup st) (downloaded_resources st)).

(** [open(name, 'r').read()] *)
Definition read_file (name : string) : Py string :=
  fun st =>
    match Dict.get (posixpath.abspath (cwd st) name) (files st) with
    | Some content => Return content st
    | None =>
        Throw (FileNotFoundError
                 ("[Errno 2] No such file or directory: '" ++ name ++ "'")) st
    end.

(** [open(name, 'w').write(content)] *)
Definition write_file (name content : string) : Py unit :=
  fun st =>
    Return tt (mkState (cwd st)
                 (Dict.set (posixpath.abspath (cwd st) name) content (files st))
                 (server st) (requests st) (stdout st) (soup st)
                 (downloaded_resources st)).

(** [session.get(url, ...)] followed by [raise_for_status()]: the request is
    issued and the network replies with a body or fails *)
Definition http_get (url : string) : Py reply :=
  fun st =>
    Return (server st (List.length (requests st)) url)
      (mkState (cwd st) (files st) (server st) (requests st ++ [url])%list
         (stdout st) (soup st) (downloaded_resources st)).

Definition set_soup (doc : document) : Py unit :=
  fun st =>
    Return tt (mkState (cwd st) (files st) (server st) (requests st)
                 (stdout st) doc (downloaded_resources st)).

Definition set_downloaded_resources (d : Dict.t) : Py unit :=
  fun st =>
    Return tt (mkState (cwd st) (files st) (server st) (requests st)
                 (stdout st) (soup st) d).

(** ** [download_resource]

    The body of the [try] block: the protocol added to a URL that starts
    with two slashes, the request, the file written. A failed request is the
    exception that the [except] clause turns into [False]. Creating the
    directory and writing the file always succeed here, and the pause after
    a download ([time.sleep]) and the session object are not represented. *)

Definition download_resource (url local_path : string) : Py bool :=
  let fetch (url : string) : Py bool :=
    print ("  Downloading: " ++ url) ;;
    r <- http_get url ;;
    match r with
    | Body content =>
        write_file local_path content ;;
        print ("    Saved to: " ++ local_path) ;;
        ret true
    | Failure msg =>
        print ("    Failed to download " ++ url ++ ": " ++ msg) ;;
        ret false
    end in
  if Str.startswith url "//" then fetch ("https:" ++ url)
  else if negb (Str.startswith_any url ["http://"; "https://"]) then ret false
  else fetch url.

(** ** The rewrite passes of [process_html_file] *)

Definition resources_dir : string := "resources".

(** after a successful download: the relative path from the directory of
    the output file to the local file, with forward slashes, recorded in
    [downloaded_resources] *)
Definition record_download (url local_path output_file : string)
  : Py (option string) :=
  st <- get_state ;;
  relative_path <-
    lift (posixpath.relpath (cwd st) local_path
            (posixpath.dirname output_file)) ;;
  let relative_path := Str.replace relative_path "\" "/" in
  set_downloaded_resources
    (Dict.set url relative_path (downloaded_resources st)) ;;
  ret (Some relative_path).

(** The part that the four passes share word for word: the local file name,
    the download and, when it succeeds, the relative path recorded in
    [downloaded_resources]; the pass then substitutes that path. *)
Definition fetch_and_record (url output_file : string) : Py (option string) :=
  local_path <- lift (create_local_filename url resources_dir) ;;
  ok <- download_resource url local_path ;;
  if ok : bool then record_download url local_path output_file
  else ret None.

(** the URL of an attribute value, or [None] when the value is skipped *)
Definition resolve_attribute_url (base_url url : string)
  : result (option string) :=
  if Str.startswith_any url ["data:"; "javascript:"; "mailto:"; "tel:"; "#"]
  then Ok None
  else
    let resolved :=
      if Str.startswith url "/" then urllib.urljoin base_url url
      else if negb (Str.startswith_any url ["http://"; "https://"; "//"])
      then urllib.urljoin base_url url
      else Ok url in
    match resolved with
    | Raise e => Raise e
    | Ok url =>
        if negb (Str.startswith_any url ["http://"; "https://"; "//"])
        then Ok None
        else Ok (Some url)
    end.

(** the body of the loop over the elements of a selector *)
Definition localize_attribute (base_url output_file attr : string) (p : path)
  : Py unit :=
  st <- get_state ;;
  match get_node (soup st) p with
  | Some (Tag _ attrs _) =>
      match Dict.get attr attrs with
      | None => ret tt
      | Some url =>
          r <- lift (resolve_attribute_url base_url url) ;;
          match r with
          | None => ret tt
          | Some url =>
              match Dict.get url (downloaded_resources st) with
              | Some local =>
                  set_soup (update_node (soup st) p (set_attr attr local))
              | None =>
                  r <- fetch_and_record url output_file ;;
                  match r with
                  | Some relative_path =>
                      set_soup (update_node (soup st) p
                                  (set_attr attr relative_path))
                  | None => ret tt
                  end
              end
          end
      end
  | _ => ret tt
  end.

Definition resource_selectors : list (selector * string) :=
  [ (mkSelector "img" None, "src");
    (mkSelector "image" None, "src");
    (mkSelector "meta" (Some ("itemprop", "image")), "content");
    (mkSelector "meta" (Some ("property", "og:image")), "content");
    (mkSelector "meta" (Some ("name", "twitter:image")), "content");
    (mkSelector "link" None, "href");
    (mkSelector "script" None, "src");
    (mkSelector "link" (Some ("rel", "icon")), "href");
    (mkSelector "link" (Some ("rel", "shortcut icon")), "href") ].

Definition attribute_pass (base_url output_file : string) : Py unit :=
  for_each resource_selectors
    (fun sa =>
       st <- get_state ;;
       for_each (select (fst sa) (soup st))
         (localize_attribute base_url output_file (snd sa))).

(** the URL of a reference found in CSS text *)
Definition resolve_css_url (base_url css_url : string) : result string :=
  if Str.startswith css_url "//" then Ok ("https:" ++ css_url)
  else if Str.startswith css_url "/" then urllib.urljoin base_url css_url
  else if negb (Str.startswith_any css_url ["http://"; "https://"])
  then urllib.urljoin base_url css_url
  else Ok css_url.

(** the body of the loop over the references of a downloaded style sheet *)
Definition localize_css_file_url (base_url output_file : string)
  (css_content css_url : string) : Py string :=
  css_url <- lift (resolve_css_url base_url css_url) ;;
  st <- get_state ;;
  if Str.startswith_any css_url ["http://"; "https://"]
     && negb (Dict.mem css_url (downloaded_resources st))
  then
    r <- fetch_and_record css_url output_file ;;
    match r with
    | Some relative_path => ret (Str.replace css_content css_url relative_path)
    | None => ret css_content
    end
  else ret css_content.

Definition process_css_file (base_url output_file css_file : string) : Py unit :=
  try_except
    (css_content <- read_file css_file ;;
     css_content <-
       for_fold (findall_url css_content)
         (localize_css_file_url base_url output_file) css_content ;;
     write_file css_file css_content)
    (fun e =>
       print ("    Error processing CSS file " ++ css_file ++ ": " ++ exn_str e)).

Definition external_css_pass (base_url output_file : string) : Py unit :=
  st <- get_state ;;
  for_each
    (map snd (List.filter (fun up => Str.endswith (snd up) ".css")
                (downloaded_resources st)))
    (process_css_file base_url output_file).

(** the body of the loop over the references of a [style] element *)
Definition localize_style_url (base_url output_file : string)
  (css_content original_css_url : string) : Py string :=
  css_url <- lift (resolve_css_url base_url original_css_url) ;;
  st <- get_state ;;
  if Str.startswith_any css_url ["http://"; "https://"]
     && negb (Dict.mem css_url (downloaded_resources st))
  then
    r <- fetch_and_record css_url output_file ;;
    match r with
    | Some relative_path =>
        ret (Str.replace css_content original_css_url relative_path)
    | None => ret css_content
    end
  else ret css_content.

Definition process_style_tag (base_url output_file : string) (p : path)
  : Py unit :=
  st <- get_state ;;
  match get_node (soup st) p with
  | Some style_tag =>
      match tag_string style_tag with
      | Some css_content =>
          if posixpath.nonempty css_content then
            css_content <-
              for_fold (findall_url css_content)
                (localize_style_url base_url output_file) css_content ;;
            st <- get_state ;;
            set_soup (update_node (soup st) p (set_string css_content))
          else ret tt
      | None => ret tt
      end
  | None => ret tt
  end.

Definition inline_style_pass (base_url output_file : string) : Py unit :=
  st <- get_state ;;
  for_each (find_paths (is_tag "style") (soup st))
    (process_style_tag base_url output_file).

(** the body of the loop over the references of a [style] attribute *)
Definition localize_style_attribute_url (base_url output_file : string)
  (style_content original_css_url : string) : Py string :=
  css_url <- lift (resolve_css_url base_url original_css_url) ;;
  st <- get_state ;;
  match Dict.get css_url (downloaded_resources st) with
  | Some local => ret (Str.replace style_content original_css_url local)
  | None =>
      if Str.startswith_any css_url ["http://"; "https://"] then
        r <- fetch_and_record css_url output_file ;;
        match r with
        | Some relative_path =>
            ret (Str.replace style_content original_css_url relative_path)
        | None => ret style_content
        end
      else ret style_content
  end.

Definition process_style_attribute (base_url output_file : string) (p : path)
  : Py unit :=
  st <- get_state ;;
  match get_node (soup st) p with
  | Some (Tag _ attrs _) =>
      let style_content :=
        match Dict.get "style" attrs with
        | Some s => s
        | None => EmptyString
        end in
      if Str.contains "url(" style_content then
        style_content <-
          for_fold (findall_url style_content)
            (localize_style_attribute_url base_url output_file) style_content ;;
        st <- get_state ;;
        set_soup (update_node (soup st) p (set_attr "style" style_content))
      else ret tt
  | _ => ret tt
  end.

Definition style_attribute_pass (base_url output_file : string) : Py unit :=
  st <- get_state ;;
  for_each (find_paths (has_attr "style") (soup st))
    (process_style_attribute base_url output_file).

(** ** The sanitizer: scripts removed, links neutralised *)

(** [script.decompose()] for every [script] element: the tree without its
    [script] elements, at every depth *)
Fixpoint remove_scripts_node (n : node) : node :=
  match n with
  | Text s => Text s
  | Tag name attrs kids =>
      Tag name attrs
        ((fix forest (l : list node) : list node :=
            match l with
            | [] => []
            | k :: r =>
                if is_tag "script" k then forest r
                else remove_scripts_node k :: forest r
            end) kids)
  end.

Fixpoint remove_scripts (l : list node) : list node :=
  match l with
  | [] => []
  | k :: r =>
      if is_tag "script" k then remove_scripts r
      else remove_scripts_node k :: remove_scripts r
  end.

(** the body of the loop over the [a] elements that have an [href] *)
Definition neutralize_link (link_replacement : string) (n : node) : node :=
  match n with
  | Text s => Text s
  | Tag name attrs kids =>
      let attrs := Dict.set "href" link_replacement attrs in
      Tag name
        (if Dict.mem "ping" attrs then Dict.del "ping" attrs else attrs) kids
  end.

(** [soup.find_all("a", href=True)] *)
Definition is_link (n : node) : bool := is_tag "a" n && has_attr "href" n.

Definition neutralize_links (link_replacement : string) (doc : document)
  : document :=
  fold_left (fun d p => update_node d p (neutralize_link link_replacement))
    (find_paths is_link doc) doc.

Definition sanitize_document (link_replacement : string) (doc : document)
  : document :=
  neutralize_links link_replacement (remove_scripts doc).

Definition sanitize (link_replacement : string) : Py unit :=
  st <- get_state ;;
  set_soup (sanitize_document link_replacement (soup st)).

(** ** The orchestrator *)

Record Job : Type := mkJob {
  input_filename : string;
  output_filename : string;
  link_replacement : string;
  base_url : string
}.

Section Orchestrator.

(** The two services of the HTML library: [BeautifulSoup(html,
    "html.parser")] and [soup.prettify()]. *)
Variable html_parser : string -> document.
Variable prettify : document -> string.

Definition process_html_file
  (input_file output_file link_replacement base_url : string) : Py unit :=
  print ("Processing " ++ input_file ++ " -> " ++ output_file) ;;
  print ("  Base URL: " ++ base_url) ;;
  html <- read_file input_file ;;
  set_soup (html_parser html) ;;
  set_downloaded_resources [] ;;
  print "  Downloading external resources..." ;;
  attribute_pass base_url output_file ;;
  print "  Processing CSS files for embedded resources..." ;;
  external_css_pass base_url output_file ;;
  print "  Processing inline CSS for embedded resources..." ;;
  inline_style_pass base_url output_file ;;
  print "  Processing inline style attributes for background images..." ;;
  style_attribute_pass base_url output_file ;;
  sanitize link_replacement ;;
  st <- get_state ;;
  write_file output_file (prettify (soup st)) ;;
  print ("Completed processing " ++ input_file) ;;
  print ("  Downloaded "
           ++ Str.of_nat (List.length (downloaded_resources st))
           ++ " resources").

(** the two [except] clauses of the loop over the jobs *)
Definition report_job_error (file_config : Job) (e : exn) : Py unit :=
  match e with
  | FileNotFoundError _ =>
      print ("Warning: Input file '" ++ input_filename file_config
               ++ "' not found, skipping...")
  | _ =>
      print ("Error processing " ++ input_filename file_config ++ ": "
               ++ exn_str e)
  end.

(** the body of the loop over the jobs (lines 391 to 402) *)
Definition process_job (file_config : Job) : Py unit :=
  try_except
    (process_html_file (input_filename file_config)
       (output_filename file_config) (link_replacement file_config)
       (base_url file_config))
    (report_job_error file_config).

(** the loop over the jobs and the last line of the script; the script
    reaches it with the list that the command line or the configuration
    file gave, which is not empty *)
Definition process_all (files_to_process : list Job) : Py unit :=
  for_each files_to_process process_job ;;
  print "All files processed!".

End Orchestrator.

(** ** The command line and the configuration file *)

(** The values that [parse_arguments] returns: the options of the command
    line, with [None] for an option that was not given and has no default. *)
Record Args : Type := mkArgs {
  args_config : string;
  args_input : option string;
  args_output : option string;
  args_link_replacement : string;
  args_base_url : string
}.

(** the truth value of an optional string: [None] and the empty string are
    false *)
Definition truthy (o : option string) : bool :=
  match o with
  | Some s => posixpath.nonempty s
  | None => false
  end.

Definition option_str (o : option string) : string :=
  match o with
  | Some s => s
  | None => EmptyString
  end.

Section Script.

Variable html_parser : string -> document.
Variable prettify : document -> string.

(** [json.load] on the text of the configuration file, for a file that,
    when it is JSON, is a list of objects with the four keys of a job: the
    jobs it lists, or the message of the [JSONDecodeError] *)
Variable json_load : string -> list Job + string.

Definition load_config (config_file : string) : Py (list Job) :=
  try_except
    (text <- read_file config_file ;;
     match json_load text with
     | inl jobs => ret jobs
     | inr msg => raise (ValueError msg)
     end)
    (fun e =>
       match e with
       | FileNotFoundError _ =>
           print ("Error: Configuration file '" ++ config_file
                    ++ "' not found.") ;;
           print "Please create a demoizer_settings.json file with your configuration." ;;
           ret []
       | ValueError msg =>
           print ("Error: Invalid JSON in configuration file '" ++ config_file
                    ++ "': " ++ msg) ;;
           ret []
       end).

(** [None] stands for [sys.exit(1)] *)
Definition get_files_to_process (args : Args) : Py (option (list Job)) :=
  if truthy (args_input args) && truthy (args_output args) then
    ret (Some [mkJob (option_str (args_input args))
                 (option_str (args_output args))
                 (args_link_replacement args) (args_base_url args)])
  else if truthy (args_input args) || truthy (args_output args) then
    print "Error: Both --input and --output must be specified for command line mode" ;;
    ret None
  else
    jobs <- load_config (args_config args) ;;
    ret (Some jobs).

(** the script from the command line to its exit status *)
Definition script (args : Args) : Py nat :=
  files_to_process <- get_files_to_process args ;;
  match files_to_process with
  | None => ret 1
  | Some [] => print "No valid configuration found. Exiting." ;; ret 1
  | Some jobs => process_all html_parser prettify jobs ;; ret 0
  end.

End Script.

(** * Notions used in the statements *)

(** ** Trees *)

(** induction on a tree, with the property assumed of every child *)
Definition node_induction (P : node -> Prop)
  (HText : forall s, P (Text s))
  (HTag : forall name attrs kids, Forall P kids -> P (Tag name attrs kids))
  : forall n, P n :=
  fix go (n : node) : P n :=
    match n with
    | Text s => HText s
    | Tag name attrs kids =>
        HTag name attrs kids
          ((fix all (l : list node) : Forall P l :=
              match l with
              | [] => Forall_nil P
              | k :: r => Forall_cons k (go k) (all r)
              end) kids)
    end.

(** the name and the attributes of an element *)
Definition label (n : node) : option (string * Dict.t) :=
  match n with
  | Text _ => None
  | Tag name attrs _ => Some (name, attrs)
  end.

Definition name_of (n : node) : option string :=
  match n with
  | Text _ => None
  | Tag name _ _ => Some name
  end.

(** the value of an attribute of a node *)
Definition node_attr (attr : string) (n : node) : option string :=
  match n with
  | Tag _ attrs _ => Dict.get attr attrs
  | Text _ => None
  end.

(** [f] changes the name or the attributes of an element, not its children *)
Definition keeps_children (f : node -> node) : Prop :=
  forall n,
    match n with
    | Text s => f n = Text s
    | Tag _ _ kids => exists name attrs, f n = Tag name attrs kids
    end.

(** how the node [m'] found at path [x] after the update at path [t]
    compares with the node [m] that was there *)
Definition updated_at (f : node -> node) (t x : path) (m' m : node)
  : Prop :=
  (x = t -> label m' = label (f m)) /\ (x <> t -> label m' = label m).

(** the node below [n] at the relative path [q] *)
Definition sub_node (n : node) (q : path) : option node :=
  match q with
  | [] => Some n
  | _ :: _ =>
      match n with
      | Tag _ _ kids => get_node kids q
      | Text _ => None
      end
  end.

Definition reachable (n : node) : Prop :=
  forall pth x m,
    In (x, m) (node_descendants pth n) ->
    exists q, x = (pth ++ q)%list /\ sub_node n q = Some m.

(** ** The sanitizer *)

Definition script_free (n : node) : Prop :=
  forall p x m,
    In (x, m) (node_descendants p (remove_scripts_node n)) ->
    is_tag "script" n = false -> is_tag "script" m = false.

(** the attributes of a neutralised link *)
Definition neutral (link_replacement : string)
  (l : option (string * Dict.t)) : Prop :=
  match l with
  | Some (_, attrs) =>
      Dict.get "href" attrs = Some link_replacement
      /\ Dict.mem "ping" attrs = false
  | None => True
  end.

(** the state of the loop over the links: [done] holds the paths already
    visited and [d] is the tree they left, [d0] the tree the loop started
    from *)
Definition links_invariant (r : string) (d0 : document) (done : list path)
  (d : document) : Prop :=
  forall x m',
    In (x, m') (descendants d) ->
    exists m,
      In (x, m) (descendants d0)
      /\ name_of m' = name_of m
      /\ (In x done -> neutral r (label m'))
      /\ (~ In x done -> label m' = label m).

(** ** States and outcomes *)

(** the state after a line was printed *)
Definition printed (line : string) (st : State) : State :=
  mkState (cwd st) (files st) (server st) (requests st)
    (stdout st ++ [line])%list (soup st) (downloaded_resources st).


Definition final_state {A : Type} (o : outcome A) : State :=
  match o with
  | Return _ st => st
  | Throw _ st => st
  end.

(** the document, the cache and the files are those of [st] *)
Definition same_store (st st' : State) : Prop :=
  soup st' = soup st
  /\ downloaded_resources st' = downloaded_resources st
  /\ files st' = files st.

(** the reply of the network to the next request, if it is for [url] *)
Definition next_reply (st : State) (url : string) : reply :=
  server st (List.length (requests st)) url.


(** the four passes in the order [process_html_file] runs them, without the
    progress lines *)
Definition rewrite_passes (base_url output_file : string) : Py unit :=
  attribute_pass base_url output_file ;;
  external_css_pass base_url output_file ;;
  inline_style_pass base_url output_file ;;
  style_attribute_pass base_url output_file.

(** ** Pages, networks and jobs of the examples *)

(** the document of the end-to-end scenario of the specification, after the
    image was localised *)
Definition scenario_document : document :=
  [ Tag "img" [("src", "resources/logo_78761c80.png")] [];
    Tag "a" [("href", "https://x.com"); ("ping", "https://t.co")] [Text "Go"];
    Tag "script" [("src", "a.js")] [] ].

Definition quiet_state (doc : document) : State :=
  mkState "/work" [] (fun _ _ => Failure "offline") [] [] doc [].

(** the parser and the printer of the examples: every input parses to the
    page of the end-to-end scenario, and a document prints as the number of
    its nodes *)
Definition scenario_parser (html : string) : document :=
  [ Tag "img" [("src", "/logo.png")] [];
    Tag "a" [("href", "https://x.com"); ("ping", "https://t.co")] [Text "Go"];
    Tag "script" [("src", "a.js")] [] ].

Definition scenario_prettify (doc : document) : string :=
  Str.of_nat (List.length (descendants doc)).

Definition missing_job : Job :=
  mkJob "missing.html" "copy.html" "#" "https://example.com".

Definition scenario_job : Job :=
  mkJob "in.html" "out.html" "#" "https://example.com".

Definition scenario_state : State :=
  mkState "/work" [("/work/in.html", "<html>")]
    (fun _ url => Body ("content of " ++ url)) [] [] [] [].

(** a document with a canonical link and an alternate link *)
Definition links_document : document :=
  [ Tag "head" []
      [ Tag "link" [("rel", "canonical"); ("href", "https://example.com/page")] [];
        Tag "link" [("rel", "alternate"); ("href", "https://example.com/feed")] [] ] ].

Definition links_state : State :=
  mkState "/work" [] (fun _ url => Body ("content of " ++ url)) [] []
    links_document [].

(** a page with one image, and a network that answers every request with
    an error status *)
Definition failing_state : State :=
  mkState "/work" [] (fun _ _ => Failure "404 Not Found") [] []
    [Tag "img" [("src", "https://example.com/logo.png")] []] [].

(** a network that serves one style sheet with the given text and the same
    bytes for every other URL *)
Definition stylesheet_server (css : string) : nat -> string -> reply :=
  fun _ url =>
    if String.eqb url "https://example.com/main.css" then Body css
    else Body "bytes".

Definition page_state (srv : nat -> string -> reply) (doc : document) : State :=
  mkState "/work" [] srv [] [] doc [].

(** the same image is referenced by an [img], by the downloaded style sheet,
    by a [style] element and by a [style] attribute *)
Definition shared_image_page : document :=
  [ Tag "img" [("src", "https://example.com/bg.png")] [];
    Tag "link" [("rel", "stylesheet");
                ("href", "https://example.com/main.css")] [];
    Tag "style" [] [Text "body{background:url(https://example.com/bg.png)}"];
    Tag "div" [("style", "background:url(https://example.com/bg.png)")] [] ].

(** the same kind of fragment reference in a [style] element, in a [style]
    attribute and in the [src] of an image *)
Definition fragment_page : document :=
  [ Tag "style" [] [Text "a{clip-path:url(#clip)}"];
    Tag "div" [("style", "filter:url(#blur)")] [];
    Tag "img" [("src", "#clip")] [] ].

Definition stylesheet_page : document :=
  [ Tag "link" [("rel", "stylesheet");
                ("href", "https://example.com/main.css")] [] ].

(** protocol-relative references in an attribute and in a [style] element *)
Definition protocol_relative_page : document :=
  [ Tag "script" [("src", "//cdn.example.com/a.js")] [];
    Tag "style" [] [Text "a{background:url(//cdn.example.com/b.png)}"] ].

(** ** Invariants of a run *)

(** [c], run from [st], leaves a state that [R] relates to [st], whether it
    returns or raises *)
Definition preserves (R : State -> State -> Prop) {A : Type} (c : Py A)
  (st : State) : Prop :=
  R st (final_state (c st)).

Definition is_http (url : string) : bool :=
  Str.startswith_any url ["http://"; "https://"].

(** the requests of [st'] are those of [st], followed by requests whose URL
    starts with [http://] or [https://] *)
Definition requests_http (st st' : State) : Prop :=
  exists new,
    requests st' = (requests st ++ new)%list
    /\ Forall (fun url => is_http url = true) new.

(** every entry of the cache of [st] is in the cache of [st'], with the same
    local path *)
Definition cache_kept (st st' : State) : Prop :=
  forall url local,
    Dict.get url (downloaded_resources st) = Some local ->
    Dict.get url (downloaded_resources st') = Some local.

(** the document of [st'] is the document of [st] *)
Definition same_soup (st st' : State) : Prop := soup st' = soup st.

(** the file [k] is the local file of some URL, in the resources directory *)
Definition resource_file (cwd k : string) : Prop :=
  exists url local_path,
    create_local_filename url resources_dir = Ok local_path
    /\ k = posixpath.abspath cwd local_path.

(** the names that the program opens for writing besides the local files:
    the output files and names that end in [.css] *)
Definition writable (outputs : list string) (name : string) : Prop :=
  In name outputs \/ Str.endswith name ".css" = true.

(** the files of [st'] are those of [st], except for local files of the
    resources directory and for files opened under a name of [outputs] or
    under a name that ends in [.css] *)
Definition files_kept (outputs : list string) (st st' : State) : Prop :=
  cwd st' = cwd st
  /\ forall k,
       Dict.get k (files st') = Dict.get k (files st)
       \/ resource_file (cwd st) k
       \/ exists name,
            writable outputs name /\ k = posixpath.abspath (cwd st) name.

(** the attributes that the pass over the resource attributes can rewrite:
    the attributes of [resource_selectors] *)
Definition resource_attribute (attr : string) : bool :=
  existsb (fun sa : selector * string => String.eqb attr (snd sa))
    resource_selectors.

(** the tree with the values of the attributes that [erased] selects
    replaced by the empty text; the names of the elements, the names of
    their attributes in their order, the values of the other attributes,
    the texts and the children are kept *)
Fixpoint blank (erased : string -> bool) (n : node) : node :=
  match n with
  | Text s => Text s
  | Tag name attrs kids =>
      Tag name
        (map (fun kv : string * string =>
                if erased (fst kv) then (fst kv, EmptyString) else kv) attrs)
        (map (blank erased) kids)
  end.

(** the documents of [st] and [st'] differ by values of the attributes that
    [erased] selects only *)
Definition same_blank (erased : string -> bool) (st st' : State) : Prop :=
  map (blank erased) (soup st') = map (blank erased) (soup st).

(** ** Further notions *)

(** the state [st] with another document and another cache *)
Definition with_store (doc : document) (cache : Dict.t) (st : State) : State :=
  mkState (cwd st) (files st) (server st) (requests st) (stdout st) doc cache.

(** the URL that [download_resource] requests for [url] *)
Definition request_url (url : string) : string :=
  if Str.startswith url "//" then "https:" ++ url else url.

(** the attributes of [m'] other than [href] and [ping] are those of [m] *)
Definition other_attributes_kept (m m' : node) : Prop :=
  forall attr,
    attr <> "href" -> attr <> "ping" -> node_attr attr m' = node_attr attr m.

(** every URL of the cache has its local file among the files *)
Definition cache_sound (st : State) : Prop :=
  forall url relative_path,
    Dict.get url (downloaded_resources st) = Some relative_path ->
    exists local_path,
      create_local_filename url resources_dir = Ok local_path
      /\ Dict.mem (posixpath.abspath (cwd st) local_path) (files st) = true.

(** every file of [st] is a file of [st'], with the same content or with
    another *)
Definition files_grow (st st' : State) : Prop :=
  forall k, Dict.mem k (files st) = true -> Dict.mem k (files st') = true.

(** from [st] to [st'] no file is lost, and the cache stays sound if it was *)
Definition sound_step (st st' : State) : Prop :=
  cwd st' = cwd st
  /\ files_grow st st'
  /\ (cache_sound st -> cache_sound st').

(** the tree without the [href] and [ping] attributes of its elements *)
Fixpoint without_link_attributes (n : node) : node :=
  match n with
  | Text s => Text s
  | Tag name attrs kids =>
      Tag name (Dict.del "ping" (Dict.del "href" attrs))
        (map without_link_attributes kids)
  end.

(** * Properties *)

(** ** The library functions on known values *)

(** the test suite of RFC 1321 *)
Example md5_empty :
  hashlib.md5_hexdigest EmptyString = "d41d8cd98f00b204e9800998ecf8427e".
Proof. vm_compute. reflexivity. Qed.

Example md5_abc :
  hashlib.md5_hexdigest "abc" = "900150983cd24fb0d6963f7d28e17f72".
Proof. vm_compute. reflexivity. Qed.

Example md5_alphabet :
  hashlib.md5_hexdigest "abcdefghijklmnopqrstuvwxyz"
  = "c3fcd3d76192e4007dfb496cca67e13b".
Proof. vm_compute. reflexivity. Qed.

(** the two resolutions that the specification lists *)
Example urljoin_relative :
  urllib.urljoin "https://example.com/x/y/" "../img/a.png"
  = Ok "https://example.com/x/img/a.png".
Proof. vm_compute. reflexivity. Qed.

Example urljoin_protocol_relative :
  urllib.urljoin "https://www.google.com" "//cdn.example.com/a.js"
  = Ok "https://cdn.example.com/a.js".
Proof. vm_compute. reflexivity. Qed.

Example urljoin_fragment :
  urllib.urljoin "https://www.google.com" "#clip"
  = Ok "https://www.google.com#clip".
Proof. vm_compute. reflexivity. Qed.

Example urljoin_other_scheme :
  urllib.urljoin "https://www.google.com" "data:image/png;base64,AAA="
  = Ok "data:image/png;base64,AAA=".
Proof. vm_compute. reflexivity. Qed.

Example urljoin_unbalanced_bracket :
  urllib.urljoin "https://www.google.com" "http://[bad"
  = Raise (ValueError "Invalid IPv6 URL").
Proof. vm_compute. reflexivity. Qed.

Example relpath_from_subdirectory :
  posixpath.relpath "/work" "resources/logo_78761c80.png" "pages"
  = Ok "../resources/logo_78761c80.png".
Proof. vm_compute. reflexivity. Qed.

Example splitext_hidden_file :
  posixpath.splitext ".htaccess" = (".htaccess", EmptyString).
Proof. vm_compute. reflexivity. Qed.

Example findall_url_forms :
  findall_url "a{background:url('x/y.png')} b{src:url(f.woff) url( g )}"
  = ["x/y.png"; "f.woff"].
Proof. vm_compute. reflexivity. Qed.

Example replace_every_occurrence :
  Str.replace "url(a.png) url(a.png.bak)" "a.png" "r/a_1.png"
  = "url(r/a_1.png) url(r/a_1.png.bak)".
Proof. vm_compute. reflexivity. Qed.

(** ** Strings *)

Lemma append_inv_head (s a b : string) : s ++ a = s ++ b -> a = b.
Proof.
  induction s as [|c s IH]; simpl; intros H.
  - exact H.
  - injection H as H. auto.
Qed.

Lemma append_inv_length (a1 a2 b1 b2 : string) :
  a1 ++ b1 = a2 ++ b2 -> String.length a1 = String.length a2 ->
  a1 = a2 /\ b1 = b2.
Proof.
  revert a2. induction a1 as [|c a1 IH]; intros [|c2 a2]; simpl;
    intros H L; try discriminate.
  - auto.
  - injection H as Hc H. injection L as L.
    destruct (IH _ H L) as [-> ->]. subst. auto.
Qed.

Lemma append_assoc (a b c : string) : (a ++ b) ++ c = a ++ b ++ c.
Proof.
  induction a as [|x a IH]; simpl; [reflexivity | now rewrite IH].
Qed.

Lemma all_filter (p : ascii -> bool) (s : string) :
  Str.all p (Str.filter p s) = true.
Proof.
  induction s as [|c s IH]; simpl; [reflexivity|].
  destruct (p c) eqn:E; simpl; [rewrite E|]; auto.
Qed.

Lemma all_rstrip (p q : ascii -> bool) (s : string) :
  Str.all p s = true -> Str.all p (Str.rstrip q s) = true.
Proof.
  induction s as [|c s IH]; simpl; [reflexivity|].
  intros H. apply andb_true_iff in H as [Hc Hs]. specialize (IH Hs).
  destruct (Str.rstrip q s) eqn:E.
  - destruct (q c); simpl; [reflexivity | now rewrite Hc].
  - simpl in *. now rewrite Hc.
Qed.

Lemma all_take (p : ascii -> bool) (n : nat) (s : string) :
  Str.all p s = true -> Str.all p (Str.take n s) = true.
Proof.
  revert s. induction n as [|n IH]; intros [|c s]; simpl; auto.
  intros H. apply andb_true_iff in H as [Hc Hs]. rewrite Hc. simpl. auto.
Qed.

(** ** The filename synthesizer *)

Lemma splitext_name_all (p : ascii -> bool) (s : string) :
  Str.all p s = true -> Str.all p (fst (posixpath.splitext s)) = true.
Proof.
  intros H. unfold posixpath.splitext.
  destruct (Str.rfind "." s); [|exact H].
  match goal with |- context [if ?b then _ else _] => destruct b end;
    simpl; [now apply all_take | exact H].
Qed.

Lemma filename_stem_safe (url name ext : string) :
  filename_stem url = Ok (name, ext) -> Str.all safe_char name = true.
Proof.
  unfold filename_stem. destruct (raw_filename url) as [f|e]; [|discriminate].
  intros H. injection H as H.
  assert (G := splitext_name_all safe_char
                 (Str.rstrip Str.isspace (Str.filter safe_char f))
                 (all_rstrip _ _ _ (all_filter _ _))).
  rewrite H in G. exact G.
Qed.

Lemma url_hash_length (url : string) : String.length (url_hash url) = 8.
Proof. reflexivity. Qed.

(** joined to a directory, a name that does not start with a slash is
    appended to a text that depends on the directory only *)
Lemma join_relative (d x : string) :
  Str.startswith x "/" = false ->
  posixpath.join d x
  = (if negb (posixpath.nonempty d) || Str.endswith d "/" then d else d ++ "/")
      ++ x.
Proof.
  intros H. unfold posixpath.join. rewrite H.
  destruct (negb (posixpath.nonempty d) || Str.endswith d "/");
    [reflexivity | now rewrite append_assoc].
Qed.

Lemma safe_filename_relative (name rest : string) :
  Str.all safe_char name = true ->
  Str.startswith (name ++ "_" ++ rest) "/" = false.
Proof.
  destruct name as [|c name]; [reflexivity|].
  intros H. cbn [Str.all] in H. apply andb_true_iff in H as [Hc _].
  change (Ascii.eqb "/" c
          && Str.startswith (name ++ "_" ++ rest) EmptyString = false).
  destruct (Ascii.eqb_spec "/"%char c) as [<-|]; [discriminate Hc | reflexivity].
Qed.

(** C8. The filename synthesizer is a pure, deterministic function of the
    URL and of the resources directory: called in any two states of the run
    (whatever the files, the network, the cache and the document are), it
    gives the same result, a path or an exception, and it leaves each state
    as it was. *)
Theorem create_local_filename_deterministic
  (url resources_dir : string) (st1 st2 : State) :
  match lift (create_local_filename url resources_dir) st1,
        lift (create_local_filename url resources_dir) st2 with
  | Return path1 st1', Return path2 st2' =>
      path1 = path2 /\ st1' = st1 /\ st2' = st2
  | Throw e1 st1', Throw e2 st2' => e1 = e2 /\ st1' = st1 /\ st2' = st2
  | _, _ => False
  end.
Proof.
  destruct (create_local_filename url resources_dir) as [local_path|e];
    cbn; auto.
Qed.

(** the path synthesized for the example of the specification *)
Example create_local_filename_logo :
  create_local_filename "https://example.com/logo.png" "resources"
  = Ok "resources/logo_78761c80.png".
Proof. vm_compute. reflexivity. Qed.

(** C9, as the code has it. Two URLs whose file names have the same stem
    get distinct paths whenever the first eight hexadecimal digits of the
    MD5 digests of the two URLs differ. *)
Theorem create_local_filename_distinct
  (url1 url2 dir name ext1 ext2 : string) :
  filename_stem url1 = Ok (name, ext1) ->
  filename_stem url2 = Ok (name, ext2) ->
  url_hash url1 <> url_hash url2 ->
  exists p1 p2,
    create_local_filename url1 dir = Ok p1
    /\ create_local_filename url2 dir = Ok p2
    /\ p1 <> p2.
Proof.
  intros H1 H2 Hh. unfold create_local_filename. rewrite H1, H2.
  do 2 eexists. split; [reflexivity|]. split; [reflexivity|].
  pose proof (filename_stem_safe _ _ _ H1) as Hs.
  rewrite !join_relative by (now apply safe_filename_relative).
  intros E. apply append_inv_head in E. apply append_inv_head in E.
  apply (append_inv_head "_") in E.
  apply append_inv_length in E.
  - destruct E as [E _]. contradiction.
  - rewrite (url_hash_length url1). apply eq_sym, url_hash_length.
Qed.

Lemma create_local_filename_distinct_witness :
  exists p1 p2,
    create_local_filename "https://example.com/logo.png" "resources" = Ok p1
    /\ create_local_filename "https://cdn.example.org/logo.png" "resources"
       = Ok p2
    /\ p1 <> p2.
Proof.
  apply (create_local_filename_distinct
           "https://example.com/logo.png" "https://cdn.example.org/logo.png"
           "resources" "logo" ".png" ".png").
  - vm_compute. reflexivity.
  - vm_compute. reflexivity.
  - vm_compute. discriminate.
Defined.

(** C9, as stated, fails: the hash keeps 32 bits of the digest, and these
    two URLs, with the same last path segment on different hosts, share
    them; both are given the path [resources/logo_60cbf5dc.png]. *)
Lemma create_local_filename_collision :
  "https://cdn9079.example.com/logo.png"
    <> "https://cdn92352.example.com/logo.png"
  /\ filename_stem "https://cdn9079.example.com/logo.png" = Ok ("logo", ".png")
  /\ filename_stem "https://cdn92352.example.com/logo.png" = Ok ("logo", ".png")
  /\ create_local_filename "https://cdn9079.example.com/logo.png" "resources"
     = Ok "resources/logo_60cbf5dc.png"
  /\ create_local_filename "https://cdn92352.example.com/logo.png" "resources"
     = Ok "resources/logo_60cbf5dc.png".
Proof.
  split; [discriminate|].
  repeat split; vm_compute; reflexivity.
Qed.

(** ** Dictionaries *)

Lemma dict_get_set_same (k v : string) (d : Dict.t) :
  Dict.get k (Dict.set k v d) = Some v.
Proof.
  induction d as [|[k' v'] d IH]; simpl.
  - now rewrite String.eqb_refl.
  - destruct (String.eqb k k') eqn:E; simpl; rewrite E; auto.
Qed.

Lemma dict_get_del_other (k k' : string) (d : Dict.t) :
  k <> k' -> Dict.get k (Dict.del k' d) = Dict.get k d.
Proof.
  intros N. induction d as [|[k2 v2] d IH]; simpl; [reflexivity|].
  destruct (String.eqb_spec k' k2) as [->|N2]; simpl.
  - destruct (String.eqb_spec k k2); [contradiction | exact IH].
  - now rewrite IH.
Qed.

Lemma dict_mem_del_same (k : string) (d : Dict.t) :
  Dict.mem k (Dict.del k d) = false.
Proof.
  unfold Dict.mem. induction d as [|[k2 v2] d IH]; simpl; [reflexivity|].
  destruct (String.eqb k k2) eqn:E; simpl; [exact IH | now rewrite E].
Qed.

(** ** The document tree *)

Lemma node_descendants_tag (p : path) (name : string) (attrs : Dict.t)
  (kids : list node) :
  node_descendants p (Tag name attrs kids)
  = (p, Tag name attrs kids) :: forest_descendants p 0 kids.
Proof.
  simpl. f_equal. generalize 0.
  induction kids as [|k r IH]; intros i; simpl; [reflexivity|].
  now rewrite IH.
Qed.

Lemma node_descendants_head (p : path) (n : node) :
  exists rest, node_descendants p n = (p, n) :: rest.
Proof. destruct n; simpl; eauto. Qed.

Lemma forest_descendants_prefix_of (P : node -> Prop) (p : path) :
  (forall n, P n ->
     forall q x m, In (x, m) (node_descendants q n) -> exists r, x = (q ++ r)%list) ->
  forall l, Forall P l -> forall i x m,
    In (x, m) (forest_descendants p i l) ->
    exists j r, x = (p ++ j :: r)%list /\ i <= j < i + List.length l.
Proof.
  intros HP l HF. induction HF as [|k l Hk _ IH]; intros i x m H; simpl in H.
  - contradiction.
  - apply in_app_or in H as [H|H].
    + destruct (HP k Hk _ _ _ H) as [r ->].
      exists i, r. rewrite <- app_assoc. simpl. split; [reflexivity | lia].
    + destruct (IH _ _ _ H) as (j & r & -> & Hj).
      exists j, r. simpl. split; [reflexivity | lia].
Qed.

Lemma node_descendants_prefix (n : node) :
  forall q x m, In (x, m) (node_descendants q n) -> exists r, x = (q ++ r)%list.
Proof.
  induction n as [s | name attrs kids IH] using node_induction; intros q x m H.
  - simpl in H. destruct H as [H|[]]. injection H as <- _.
    exists []. now rewrite app_nil_r.
  - rewrite node_descendants_tag in H. destruct H as [H|H].
    + injection H as <- _. exists []. now rewrite app_nil_r.
    + apply (forest_descendants_prefix_of
               (fun n => forall q x m, In (x, m) (node_descendants q n) ->
                                       exists r, x = (q ++ r)%list)) in H;
        auto.
      destruct H as (j & r & -> & _). eauto.
Qed.

Lemma forest_descendants_prefix (p : path) (l : list node) (i : nat)
  (x : path) (m : node) :
  In (x, m) (forest_descendants p i l) ->
  exists j r, x = (p ++ j :: r)%list /\ i <= j < i + List.length l.
Proof.
  apply (forest_descendants_prefix_of (fun _ => True)).
  - intros n _. apply node_descendants_prefix.
  - apply Forall_forall. auto.
Qed.

Lemma app_cons_neq_self {A : Type} (p r : list A) (j : A) :
  (p ++ j :: r)%list <> p.
Proof.
  intros H. apply (f_equal (@List.length A)) in H.
  rewrite length_app in H. simpl in H. lia.
Qed.

Section Update.

Local Open Scope list_scope.

Variable f : node -> node.
Hypothesis f_keeps_children : keeps_children f.

Lemma updated_at_other (t x : path) (m : node) : x <> t -> updated_at f t x m m.
Proof. intros N. split; [contradiction | reflexivity]. Qed.

Lemma forest_descendants_map_nth (g : node -> node) (suffix : path) :
  (forall k pth x m',
     In (x, m') (node_descendants pth (g k)) ->
     exists m, In (x, m) (node_descendants pth k)
               /\ updated_at f (pth ++ suffix) x m' m) ->
  forall l i pre i0 x m',
    In (x, m') (forest_descendants pre i0 (map_nth i g l)) ->
    exists m, In (x, m) (forest_descendants pre i0 l)
              /\ updated_at f (pre ++ (i0 + i) :: suffix) x m' m.
Proof.
  intros Hg l. induction l as [|k l IH]; intros i pre i0 x m' H.
  - destruct i; simpl in H; contradiction.
  - destruct i as [|i]; simpl in H; apply in_app_or in H as [H|H].
    + destruct (Hg _ _ _ _ H) as (m & Hm & Hu).
      exists m. split; [simpl; apply in_or_app; auto|].
      rewrite Nat.add_0_r. rewrite <- app_assoc in Hu. exact Hu.
    + exists m'. split; [simpl; apply in_or_app; auto|].
      apply updated_at_other. intros E.
      apply forest_descendants_prefix in H as (j & r & -> & Hj).
      apply app_inv_head in E. injection E as E _. lia.
    + exists m'. split; [simpl; apply in_or_app; auto|].
      apply updated_at_other. intros E.
      apply node_descendants_prefix in H as [r ->].
      rewrite <- app_assoc in E. apply app_inv_head in E.
      simpl in E. injection E as E _. lia.
    + destruct (IH _ _ _ _ _ H) as (m & Hm & Hu).
      exists m. split; [simpl; apply in_or_app; auto|].
      replace (i0 + S i) with (S i0 + i) by lia. exact Hu.
Qed.

(** After [f] is applied at the path [pre ++ (i0 + i) :: q], every node of
    the tree sits where a node sat before, with the same name and
    attributes, except at that path, where they are those [f] gives. *)
Lemma forest_descendants_update (q : path) :
  forall l i pre i0 x m',
    In (x, m') (forest_descendants pre i0 (update_node l (i :: q) f)) ->
    exists m, In (x, m) (forest_descendants pre i0 l)
              /\ updated_at f (pre ++ (i0 + i) :: q) x m' m.
Proof.
  induction q as [|j q IHq]; intros l i.
  - apply (forest_descendants_map_nth (fun n => f n) []).
    intros k pth x m' H. rewrite app_nil_r.
    pose proof (f_keeps_children k) as Hk. destruct k as [s|name attrs kids].
    + rewrite Hk in H. exists (Text s).
      simpl in H. destruct H as [H|[]]. injection H as <- <-.
      split; [now left|]. split; [now rewrite Hk | contradiction].
    + destruct Hk as (name' & attrs' & Hk). rewrite Hk in H.
      rewrite node_descendants_tag in *. destruct H as [H|H].
      * injection H as <- <-. exists (Tag name attrs kids).
        split; [now left|]. split; [now rewrite Hk | contradiction].
      * exists m'. split; [now right|].
        apply updated_at_other.
        apply forest_descendants_prefix in H as (j & r & -> & _).
        apply app_cons_neq_self.
  - apply (forest_descendants_map_nth
             (fun n => match n with
                       | Tag name attrs kids =>
                           Tag name attrs (update_node kids (j :: q) f)
                       | Text s => Text s
                       end) (j :: q)).
    intros k pth x m' H. destruct k as [s|name attrs kids].
    + exists m'. split; [exact H|]. apply updated_at_other.
      simpl in H. destruct H as [H|[]]. injection H as <- _.
      apply not_eq_sym, app_cons_neq_self.
    + rewrite node_descendants_tag in *. destruct H as [H|H].
      * injection H as <- <-. exists (Tag name attrs kids).
        split; [now left|]. split; [|reflexivity].
        intros E. symmetry in E. now apply app_cons_neq_self in E.
      * destruct (IHq _ _ _ _ _ _ H) as (m & Hm & Hu).
        exists m. split; [now right | exact Hu].
Qed.

Lemma descendants_update (doc : document) (p x : path) (m' : node) :
  In (x, m') (descendants (update_node doc p f)) ->
  exists m, In (x, m) (descendants doc) /\ updated_at f p x m' m.
Proof.
  destruct p as [|i q]; intros H.
  - exists m'. split; [exact H|]. apply updated_at_other. intros ->.
    apply forest_descendants_prefix in H as (j & r & E & _). discriminate E.
  - apply forest_descendants_update in H. exact H.
Qed.

End Update.

(** ** The sanitizer *)

Lemma remove_scripts_node_tag (name : string) (attrs : Dict.t)
  (kids : list node) :
  remove_scripts_node (Tag name attrs kids)
  = Tag name attrs (remove_scripts kids).
Proof. reflexivity. Qed.

Lemma remove_scripts_forest (l : list node) :
  Forall script_free l ->
  forall p i x m,
    In (x, m) (forest_descendants p i (remove_scripts l)) ->
    is_tag "script" m = false.
Proof.
  intros HF. induction HF as [|k l Hk _ IH]; intros p i x m H; simpl in H.
  - contradiction.
  - destruct (is_tag "script" k) eqn:E.
    + eauto.
    + simpl in H. apply in_app_or in H as [H|H]; [|eauto].
      exact (Hk _ _ _ H E).
Qed.

Lemma remove_scripts_node_free (n : node) : script_free n.
Proof.
  induction n as [s | name attrs kids IH] using node_induction;
    intros p x m H Hn.
  - simpl in H. destruct H as [H|[]]. now injection H as _ <-.
  - rewrite remove_scripts_node_tag, node_descendants_tag in H.
    destruct H as [H|H].
    + now injection H as _ <-.
    + exact (remove_scripts_forest kids IH _ _ _ _ H).
Qed.

Lemma remove_scripts_free (doc : document) (x : path) (m : node) :
  In (x, m) (descendants (remove_scripts doc)) -> is_tag "script" m = false.
Proof.
  apply remove_scripts_forest. apply Forall_forall.
  intros n _. apply remove_scripts_node_free.
Qed.

Lemma neutralize_link_keeps_children (r : string) :
  keeps_children (neutralize_link r).
Proof. intros [s|name attrs kids]; simpl; eauto. Qed.

Lemma neutralize_link_neutral (r : string) (n : node) :
  neutral r (label (neutralize_link r n)).
Proof.
  destruct n as [s|name attrs kids]; simpl; [exact I|].
  destruct (Dict.mem "ping" (Dict.set "href" r attrs)) eqn:E.
  - split; [|apply dict_mem_del_same].
    rewrite dict_get_del_other by discriminate. apply dict_get_set_same.
  - split; [apply dict_get_set_same | exact E].
Qed.

Lemma neutralize_link_name (r : string) (n : node) :
  name_of (neutralize_link r n) = name_of n.
Proof. destruct n; reflexivity. Qed.

Lemma label_name_of (m m' : node) : label m' = label m -> name_of m' = name_of m.
Proof.
  destruct m, m'; simpl; intros H; try discriminate; try reflexivity.
  now injection H as -> _.
Qed.

Lemma label_is_link (m m' : node) : label m' = label m -> is_link m' = is_link m.
Proof.
  destruct m, m'; simpl; intros H; try discriminate; try reflexivity.
  now injection H as -> ->.
Qed.

Lemma name_of_is_script (m m' : node) :
  name_of m' = name_of m -> is_tag "script" m' = is_tag "script" m.
Proof.
  destruct m, m'; simpl; intros H; try discriminate; try reflexivity.
  now injection H as ->.
Qed.

Lemma links_invariant_step (r : string) (d0 d : document) (done : list path)
  (p : path) :
  links_invariant r d0 done d ->
  links_invariant r d0 (p :: done) (update_node d p (neutralize_link r)).
Proof.
  intros Inv x m'' H.
  apply (descendants_update _ (neutralize_link_keeps_children r)) in H.
  destruct H as (m' & Hm' & Hp & Hnp).
  destruct (Inv _ _ Hm') as (m & Hm & Hname & Hdone & Hnot).
  exists m. split; [exact Hm|].
  destruct (list_eq_dec Nat.eq_dec x p) as [E|N].
  - specialize (Hp E). repeat split.
    + rewrite (label_name_of _ _ Hp), neutralize_link_name. exact Hname.
    + intros _. rewrite Hp. apply neutralize_link_neutral.
    + intros Hn. exfalso. apply Hn. left. now symmetry.
  - specialize (Hnp N). repeat split.
    + now rewrite (label_name_of _ _ Hnp).
    + intros [E|Hd]; [now symmetry in E | rewrite Hnp; auto].
    + intros Hn. rewrite Hnp. apply Hnot. intros Hd. apply Hn. now right.
Qed.

Lemma links_invariant_loop (r : string) (d0 : document) (ps : list path) :
  forall done d,
    links_invariant r d0 done d ->
    links_invariant r d0 (rev ps ++ done)%list
      (fold_left (fun d p => update_node d p (neutralize_link r)) ps d).
Proof.
  induction ps as [|p ps IH]; intros done d Inv; simpl; [exact Inv|].
  rewrite <- app_assoc. simpl. apply IH. now apply links_invariant_step.
Qed.

Lemma neutralize_links_invariant (r : string) (d0 : document) :
  links_invariant r d0 (find_paths is_link d0) (neutralize_links r d0).
Proof.
  assert (Inv0 : links_invariant r d0 [] d0).
  { intros x m H. exists m. repeat split; auto. intros []. }
  pose proof (links_invariant_loop r d0 (find_paths is_link d0) [] d0 Inv0)
    as Inv.
  intros x m' H. destruct (Inv x m' H) as (m & Hm & Hname & Hdone & Hnot).
  exists m. repeat split; auto.
  - intros Hx. apply Hdone. rewrite app_nil_r. now apply -> in_rev.
  - intros Hx. apply Hnot. rewrite app_nil_r. intros Hr. apply Hx.
    now apply in_rev.
Qed.

Lemma find_paths_complete (f : node -> bool) (doc : document) (x : path)
  (m : node) :
  In (x, m) (descendants doc) -> f m = true -> In x (find_paths f doc).
Proof.
  intros H Hf. unfold find_paths.
  change x with (fst (x, m)). apply in_map. apply filter_In. auto.
Qed.

Lemma sanitize_document_nodes (r : string) (doc : document) (x : path)
  (m : node) :
  In (x, m) (descendants (sanitize_document r doc)) ->
  is_tag "script" m = false
  /\ (is_link m = true -> node_attr "href" m = Some r /\ has_attr "ping" m = false).
Proof.
  intros H. unfold sanitize_document in H.
  destruct (neutralize_links_invariant r (remove_scripts doc) x m H)
    as (m0 & Hm0 & Hname & Hdone & Hnot).
  split.
  - rewrite (name_of_is_script _ _ Hname). exact (remove_scripts_free _ _ _ Hm0).
  - intros Hl.
    assert (Hin : In x (find_paths is_link (remove_scripts doc))).
    { destruct (in_dec (list_eq_dec Nat.eq_dec) x
                  (find_paths is_link (remove_scripts doc))) as [Hi|Hn];
        [exact Hi|].
      apply (find_paths_complete is_link _ _ m0 Hm0).
      now rewrite <- (label_is_link _ _ (Hnot Hn)). }
    specialize (Hdone Hin). destruct m as [s|name attrs kids];
      [discriminate Hl | exact Hdone].
Qed.

(** C6, as the code has it. After the sanitizer has run, the document has
    no [script] element, and every [a] element that carries an [href] has
    the link replacement as its [href] and carries no [ping] attribute. *)
Theorem sanitize_neutralises (r : string) (st : State) :
  exists st',
    sanitize r st = Return tt st'
    /\ forall x m,
         In (x, m) (descendants (soup st')) ->
         is_tag "script" m = false
         /\ (is_tag "a" m = true -> has_attr "href" m = true ->
             node_attr "href" m = Some r /\ has_attr "ping" m = false).
Proof.
  eexists. split; [reflexivity|]. cbn [soup]. intros x m H.
  destruct (sanitize_document_nodes r (soup st) x m H) as [Hs Hl].
  split; [exact Hs|]. intros Ha Hh. apply Hl. unfold is_link.
  now rewrite Ha, Hh.
Qed.

Lemma sanitize_neutralises_witness :
  is_tag "script" (Tag "a" [("href", "#")] [Text "Go"]) = false
  /\ (is_tag "a" (Tag "a" [("href", "#")] [Text "Go"]) = true ->
      has_attr "href" (Tag "a" [("href", "#")] [Text "Go"]) = true ->
      node_attr "href" (Tag "a" [("href", "#")] [Text "Go"]) = Some "#"
      /\ has_attr "ping" (Tag "a" [("href", "#")] [Text "Go"]) = false).
Proof.
  destruct (sanitize_neutralises "#" (quiet_state scenario_document))
    as (st' & Hrun & Hall).
  injection Hrun as <-.
  apply (Hall [1]). vm_compute. right. left. reflexivity.
Defined.

(** the sanitizer on the scenario: the script is gone, the link is
    neutralised *)
Example sanitize_document_scenario :
  sanitize_document "#" scenario_document
  = [ Tag "img" [("src", "resources/logo_78761c80.png")] [];
      Tag "a" [("href", "#")] [Text "Go"] ].
Proof. vm_compute. reflexivity. Qed.

(** C6, as stated, fails: the loop visits the [a] elements that have an
    [href] only, so an [a] element without [href] keeps its [ping]. *)
Lemma sanitize_document_keeps_ping :
  sanitize_document "#" [Tag "a" [("ping", "https://t.co")] [Text "Go"]]
  = [Tag "a" [("ping", "https://t.co")] [Text "Go"]]
  /\ is_tag "a" (Tag "a" [("ping", "https://t.co")] [Text "Go"]) = true
  /\ has_attr "ping" (Tag "a" [("ping", "https://t.co")] [Text "Go"]) = true.
Proof. repeat split; vm_compute; reflexivity. Qed.

(** ** The loop over the jobs *)

Lemma for_each_app {A : Type} (body : A -> Py unit) (l1 l2 : list A)
  (st : State) :
  for_each (l1 ++ l2)%list body st
  = match for_each l1 body st with
    | Return _ st' => for_each l2 body st'
    | Throw e st' => Throw e st'
    end.
Proof.
  revert st. induction l1 as [|x l1 IH]; intros st; simpl; [reflexivity|].
  unfold bind. destruct (body x st) as [[] st'|e st']; [apply IH | reflexivity].
Qed.

Lemma for_each_returns {A : Type} (body : A -> Py unit) (l : list A) :
  (forall x st, exists st', body x st = Return tt st') ->
  forall st, exists st', for_each l body st = Return tt st'.
Proof.
  intros Hb. induction l as [|x l IH]; intros st; simpl.
  - eexists. reflexivity.
  - unfold bind. destruct (Hb x st) as [st1 ->]. apply IH.
Qed.


Section OrchestratorProperties.

Variable html_parser : string -> document.
Variable prettify : document -> string.



End OrchestratorProperties.


(** the console after the run of the two jobs *)
Example process_all_scenario :
  match process_all scenario_parser scenario_prettify
          [missing_job; scenario_job] scenario_state with
  | Return _ st =>
      stdout st
      = [ "Processing missing.html -> copy.html";
          "  Base URL: https://example.com";
          "Warning: Input file 'missing.html' not found, skipping...";
          "Processing in.html -> out.html";
          "  Base URL: https://example.com";
          "  Downloading external resources...";
          "  Downloading: https://example.com/logo.png";
          "    Saved to: resources/logo_78761c80.png";
          "  Downloading: https://example.com/a.js";
          "    Saved to: resources/a_5d5ed55c.js";
          "  Processing CSS files for embedded resources...";
          "  Processing inline CSS for embedded resources...";
          "  Processing inline style attributes for background images...";
          "Completed processing in.html";
          "  Downloaded 2 resources";
          "All files processed!" ]
      /\ Dict.get "/work/out.html" (files st) = Some "3"
  | Throw _ _ => False
  end.
Proof. vm_compute. split; reflexivity. Qed.

(** ** Paths and nodes *)

Lemma get_node_cons (l : list node) (i : nat) (q : path) :
  get_node l (i :: q)
  = match nth_error l i with
    | Some n => sub_node n q
    | None => None
    end.
Proof. simpl. destruct (nth_error l i); [|reflexivity]. now destruct q. Qed.

Lemma forest_descendants_get_node (l : list node) :
  Forall reachable l ->
  forall pre i0 x m,
    In (x, m) (forest_descendants pre i0 l) ->
    exists i q, x = (pre ++ (i0 + i) :: q)%list /\ get_node l (i :: q) = Some m.
Proof.
  intros HF. induction HF as [|k l Hk _ IH]; intros pre i0 x m H; simpl in H.
  - contradiction.
  - apply in_app_or in H as [H|H].
    + destruct (Hk _ _ _ H) as (q & -> & Hq).
      exists 0, q. rewrite Nat.add_0_r, <- app_assoc. split; [reflexivity|].
      rewrite get_node_cons. exact Hq.
    + destruct (IH _ _ _ _ H) as (i & q & -> & Hq).
      exists (S i), q. replace (i0 + S i) with (S i0 + i) by lia.
      split; [reflexivity|]. rewrite get_node_cons in *. exact Hq.
Qed.

Lemma node_reachable (n : node) : reachable n.
Proof.
  induction n as [s | name attrs kids IH] using node_induction;
    intros pth x m H.
  - simpl in H. destruct H as [H|[]]. injection H as <- <-.
    exists []. now rewrite app_nil_r.
  - rewrite node_descendants_tag in H. destruct H as [H|H].
    + injection H as <- <-. exists []. now rewrite app_nil_r.
    + destruct (forest_descendants_get_node kids IH _ _ _ _ H)
        as (i & q & -> & Hq).
      exists (i :: q). split; [reflexivity | exact Hq].
Qed.

(** a node listed with a path is the node found at that path *)
Lemma descendants_get_node (doc : document) (p : path) (n : node) :
  In (p, n) (descendants doc) -> get_node doc p = Some n.
Proof.
  intros H. apply forest_descendants_get_node in H.
  - destruct H as (i & q & -> & Hq). exact Hq.
  - apply Forall_forall. intros k _. apply node_reachable.
Qed.

Lemma nth_error_map_nth {A : Type} (g : A -> A) (l : list A) (i : nat) :
  nth_error (map_nth i g l) i = option_map g (nth_error l i).
Proof.
  revert i. induction l as [|x l IH]; intros [|i]; simpl; auto.
Qed.

Lemma get_node_update (f : node -> node) (p : path) :
  forall doc n,
    get_node doc p = Some n ->
    get_node (update_node doc p f) p = Some (f n).
Proof.
  induction p as [|i q IH]; intros doc n H; [discriminate H|].
  rewrite get_node_cons in H. destruct (nth_error doc i) as [k|] eqn:E;
    [|discriminate H].
  cbn [update_node]. rewrite get_node_cons, nth_error_map_nth, E.
  cbn [option_map]. destruct q as [|j q].
  - simpl in *. now injection H as ->.
  - destruct k as [s|name attrs kids]; [discriminate H|].
    cbn [sub_node] in *. now apply IH.
Qed.

(** ** Downloads *)




(** ** The attribute pass and the [link] elements *)



(** the attribute pass on that document: both links are downloaded and
    rewritten *)
Example attribute_pass_links :
  match attribute_pass "https://example.com" "out.html" links_state with
  | Return _ st =>
      soup st
      = [ Tag "head" []
            [ Tag "link" [("rel", "canonical");
                          ("href", "resources/page_fb37c0eb.html")] [];
              Tag "link" [("rel", "alternate");
                          ("href", "resources/feed_ca7a0f39.html")] [] ] ]
      /\ requests st
         = ["https://example.com/page"; "https://example.com/feed"]
  | Throw _ _ => False
  end.
Proof. vm_compute. split; reflexivity. Qed.

(** ** Failed downloads *)

Lemma same_store_refl (st : State) : same_store st st.
Proof. repeat split. Qed.









Section FailedFetch.

Variables base_url output_file request msg : string.
Variable st : State.
Hypothesis request_fails : next_reply st request = Failure msg.





End FailedFetch.



(** the attribute pass on that page: the request is made, the [src] keeps
    its value and nothing is recorded *)
Example attribute_pass_failed_fetch :
  match attribute_pass "https://example.com" "out.html" failing_state with
  | Return _ st =>
      soup st = soup failing_state
      /\ downloaded_resources st = []
      /\ requests st = ["https://example.com/logo.png"]
      /\ stdout st
         = [ "  Downloading: https://example.com/logo.png";
             "    Failed to download https://example.com/logo.png: 404 Not Found" ]
  | Throw _ _ => False
  end.
Proof. vm_compute. repeat split; reflexivity. Qed.

(** ** The four passes on concrete pages *)

(** C1 on the code. The image is fetched once and cached by the attribute
    pass. The [style] attribute then receives the cached path, but the
    downloaded style sheet and the [style] element keep the remote URL:
    on a cache hit these two passes substitute nothing. *)
Theorem cache_hit_not_substituted_in_css :
  match rewrite_passes "https://example.com" "out.html"
          (page_state
             (stylesheet_server "h1{background:url(https://example.com/bg.png)}")
             shared_image_page) with
  | Return _ st =>
      requests st
      = ["https://example.com/bg.png"; "https://example.com/main.css"]
      /\ Dict.get "https://example.com/bg.png" (downloaded_resources st)
         = Some "resources/bg_e6b0dc2e.png"
      /\ soup st
         = [ Tag "img" [("src", "resources/bg_e6b0dc2e.png")] [];
             Tag "link" [("rel", "stylesheet");
                         ("href", "resources/main_c14a4499.css")] [];
             Tag "style" []
               [Text "body{background:url(https://example.com/bg.png)}"];
             Tag "div"
               [("style", "background:url(resources/bg_e6b0dc2e.png)")] [] ]
      /\ Dict.get "/work/resources/main_c14a4499.css" (files st)
         = Some "h1{background:url(https://example.com/bg.png)}"
  | Throw _ _ => False
  end.
Proof. vm_compute. repeat split; reflexivity. Qed.

(** C2 on the code. The attribute pass skips the reference [#clip], but the
    passes over CSS text have no such test: the fragment is joined to the
    base URL and a request is issued for it. *)
Theorem css_fragment_reference_fetched :
  match rewrite_passes "https://www.google.com" "out.html"
          (page_state (stylesheet_server EmptyString) fragment_page) with
  | Return _ st =>
      requests st
      = ["https://www.google.com#clip"; "https://www.google.com#blur"]
      /\ soup st
         = [ Tag "style" []
               [Text "a{clip-path:url(resources/www_google_com_214092cb.html)}"];
             Tag "div"
               [("style",
                 "filter:url(resources/www_google_com_746d4c76.html)")] [];
             Tag "img" [("src", "#clip")] [] ]
  | Throw _ _ => False
  end.
Proof. vm_compute. split; reflexivity. Qed.

(** C3 on the code. The font of the downloaded style sheet is referenced by
    a path; it resolves, is fetched and is recorded, but the text of the
    style sheet is searched for the resolved URL, which does not occur in
    it, and the file is written back unchanged. *)
Theorem stylesheet_relative_url_not_substituted :
  match rewrite_passes "https://example.com" "out.html"
          (page_state (stylesheet_server "@font-face{src:url(/fonts/a.woff2)}")
             stylesheet_page) with
  | Return _ st =>
      requests st
      = ["https://example.com/main.css"; "https://example.com/fonts/a.woff2"]
      /\ Dict.get "https://example.com/fonts/a.woff2" (downloaded_resources st)
         = Some "resources/a_01b622be.woff2"
      /\ Dict.get "/work/resources/a_01b622be.woff2" (files st) = Some "bytes"
      /\ Dict.get "/work/resources/main_c14a4499.css" (files st)
         = Some "@font-face{src:url(/fonts/a.woff2)}"
  | Throw _ _ => False
  end.
Proof. vm_compute. repeat split; reflexivity. Qed.

(** C4 on the code. With a base URL whose scheme is [http], the attribute
    pass joins the reference to the base and obtains an [http] URL, which is
    the one fetched, hashed and recorded; the pass over the [style] element
    prefixes [https:] to a reference of the same form. *)
Theorem protocol_relative_attribute_takes_base_scheme :
  resolve_attribute_url "http://example.com" "//cdn.example.com/a.js"
  = Ok (Some "http://cdn.example.com/a.js")
  /\ resolve_css_url "http://example.com" "//cdn.example.com/b.png"
     = Ok "https://cdn.example.com/b.png"
  /\ match rewrite_passes "http://example.com" "out.html"
             (page_state (stylesheet_server EmptyString)
                protocol_relative_page) with
     | Return _ st =>
         requests st
         = ["http://cdn.example.com/a.js"; "https://cdn.example.com/b.png"]
         /\ downloaded_resources st
            = [ ("http://cdn.example.com/a.js", "resources/a_72753ed9.js");
                ("https://cdn.example.com/b.png", "resources/b_e45185ea.png") ]
     | Throw _ _ => False
     end.
Proof. vm_compute. repeat split; reflexivity. Qed.

(** with the default base URL, whose scheme is [https], the reference of the
    specification resolves as it says *)
Example protocol_relative_https_base :
  resolve_attribute_url "https://www.google.com" "//cdn.example.com/a.js"
  = Ok (Some "https://cdn.example.com/a.js").
Proof. vm_compute. reflexivity. Qed.

(** * Further properties *)

(** ** The synthesized path stays in the resources directory *)















(** ** The script *)

Section ScriptProperties.

Variable html_parser : string -> document.
Variable prettify : document -> string.
Variable json_load : string -> list Job + string.




(** X3. With both [--input] and [--output] given and not empty, the script
    processes exactly the job of the command line: the configuration file is
    not read, whether it exists or not. *)
Theorem script_command_line_mode
  (config input output link base : string) (st : State) :
  input <> EmptyString -> output <> EmptyString ->
  script html_parser prettify json_load
    (mkArgs config (Some input) (Some output) link base) st
  = (process_all html_parser prettify [mkJob input output link base] ;;
     ret 0) st.
Proof.
  intros Hi Ho. unfold script, get_files_to_process, bind. cbn.
  unfold posixpath.nonempty.
  apply String.eqb_neq in Hi, Ho. rewrite Hi, Ho. reflexivity.
Qed.

(** X4. With only one of [--input] and [--output] given, or one of them empty,
    the script prints the error and exits with status 1, whatever the
    configuration file holds. *)
Theorem script_incomplete_command_line (args : Args) (st : State) :
  truthy (args_input args) <> truthy (args_output args) ->
  script html_parser prettify json_load args st
  = Return 1
      (printed
         "Error: Both --input and --output must be specified for command line mode"
         st).
Proof.
  intros H. unfold script, get_files_to_process, bind.
  destruct (truthy (args_input args)), (truthy (args_output args));
    try contradiction; reflexivity.
Qed.

(** X5. Without [--input] and [--output], and with a configuration file that
    does not exist, the script prints the two lines of [load_config] and the
    line of the empty configuration, and exits with status 1. *)
Theorem script_missing_config (args : Args) (st : State) :
  truthy (args_input args) = false ->
  truthy (args_output args) = false ->
  Dict.get (posixpath.abspath (cwd st) (args_config args)) (files st) = None ->
  script html_parser prettify json_load args st
  = Return 1
      (printed "No valid configuration found. Exiting."
         (printed
            "Please create a demoizer_settings.json file with your configuration."
            (printed ("Error: Configuration file '" ++ args_config args
                        ++ "' not found.") st))).
Proof.
  intros Hi Ho Hc.
  unfold script, get_files_to_process. rewrite Hi, Ho. cbn [andb orb].
  unfold load_config, try_except, bind, read_file.
  rewrite Hc. reflexivity.
Qed.

(** X6. Without [--input] and [--output], and with a configuration file that is
    not JSON, the script prints the message of the decoder and the line of
    the empty configuration, and exits with status 1. *)
Theorem script_invalid_config (args : Args) (st : State)
  (text msg : string) :
  truthy (args_input args) = false ->
  truthy (args_output args) = false ->
  Dict.get (posixpath.abspath (cwd st) (args_config args)) (files st)
  = Some text ->
  json_load text = inr msg ->
  script html_parser prettify json_load args st
  = Return 1
      (printed "No valid configuration found. Exiting."
         (printed ("Error: Invalid JSON in configuration file '"
                     ++ args_config args ++ "': " ++ msg) st)).
Proof.
  intros Hi Ho Hc Hj.
  unfold script, get_files_to_process. rewrite Hi, Ho. cbn [andb orb].
  unfold load_config, try_except, bind, read_file.
  rewrite Hc, Hj. reflexivity.
Qed.

End ScriptProperties.


Lemma script_command_line_mode_witness :
  script scenario_parser scenario_prettify (fun _ => inr "no JSON")
    (mkArgs "demoizer_settings.json" (Some "in.html") (Some "out.html") "#"
       "https://example.com") scenario_state
  = (process_all scenario_parser scenario_prettify
       [mkJob "in.html" "out.html" "#" "https://example.com"] ;;
     ret 0) scenario_state.
Proof.
  apply (script_command_line_mode scenario_parser scenario_prettify
           (fun _ => inr "no JSON") "demoizer_settings.json" "in.html"
           "out.html" "#" "https://example.com" scenario_state);
    discriminate.
Defined.

Lemma script_incomplete_command_line_witness :
  script scenario_parser scenario_prettify (fun _ => inr "no JSON")
    (mkArgs "demoizer_settings.json" (Some "in.html") None "#"
       "https://example.com") scenario_state
  = Return 1
      (printed
         "Error: Both --input and --output must be specified for command line mode"
         scenario_state).
Proof.
  apply (script_incomplete_command_line scenario_parser scenario_prettify
           (fun _ => inr "no JSON")
           (mkArgs "demoizer_settings.json" (Some "in.html") None "#"
              "https://example.com") scenario_state).
  vm_compute. discriminate.
Defined.

Lemma script_missing_config_witness :
  script scenario_parser scenario_prettify (fun _ => inr "no JSON")
    (mkArgs "demoizer_settings.json" None None "#" "https://www.google.com")
    scenario_state
  = Return 1
      (printed "No valid configuration found. Exiting."
         (printed
            "Please create a demoizer_settings.json file with your configuration."
            (printed ("Error: Configuration file '" ++ "demoizer_settings.json"
                        ++ "' not found.") scenario_state))).
Proof.
  apply (script_missing_config scenario_parser scenario_prettify
           (fun _ => inr "no JSON")
           (mkArgs "demoizer_settings.json" None None "#"
              "https://www.google.com") scenario_state);
    vm_compute; reflexivity.
Defined.

Lemma script_invalid_config_witness :
  script scenario_parser scenario_prettify
    (fun _ => inr "Expecting value: line 1 column 1 (char 0)")
    (mkArgs "in.html" None None "#" "https://www.google.com") scenario_state
  = Return 1
      (printed "No valid configuration found. Exiting."
         (printed ("Error: Invalid JSON in configuration file '" ++ "in.html"
                     ++ "': " ++ "Expecting value: line 1 column 1 (char 0)")
            scenario_state)).
Proof.
  apply (script_invalid_config scenario_parser scenario_prettify
           (fun _ => inr "Expecting value: line 1 column 1 (char 0)")
           (mkArgs "in.html" None None "#" "https://www.google.com")
           scenario_state "<html>");
    vm_compute; reflexivity.
Defined.

(** ** Relations that every step of a run preserves *)

Lemma lift_returns {A : Type} (r : result A) (a : A) (st st' : State) :
  lift r st = Return a st' -> r = Ok a /\ st' = st.
Proof.
  destruct r as [b|e]; unfold lift, ret, raise; intros H;
    [injection H as -> ->; now split | discriminate H].
Qed.

Lemma dict_get_set_other (k k' v : string) (d : Dict.t) :
  k <> k' -> Dict.get k (Dict.set k' v d) = Dict.get k d.
Proof.
  intros Hk. apply String.eqb_neq in Hk.
  induction d as [|[k0 v0] d IH]; simpl.
  - now rewrite Hk.
  - destruct (String.eqb k' k0) eqn:E; simpl.
    + apply String.eqb_eq in E. subst k0. now rewrite Hk.
    + now rewrite IH.
Qed.

Lemma dict_mem_get (k : string) (d : Dict.t) :
  Dict.mem k d = false -> Dict.get k d = None.
Proof. unfold Dict.mem. now destruct (Dict.get k d). Qed.

Section Preserves.

Variable R : State -> State -> Prop.
Hypothesis R_refl : forall st, R st st.
Hypothesis R_trans : forall a b c, R a b -> R b c -> R a c.

Lemma preserves_ret {A : Type} (a : A) (st : State) : preserves R (ret a) st.
Proof. apply R_refl. Qed.

Lemma preserves_lift {A : Type} (r : result A) (st : State) :
  preserves R (lift r) st.
Proof. destruct r; apply R_refl. Qed.

Lemma preserves_read_file (name : string) (st : State) :
  preserves R (read_file name) st.
Proof.
  unfold preserves, read_file.
  destruct (Dict.get (posixpath.abspath (cwd st) name) (files st));
    apply R_refl.
Qed.

Lemma preserves_bind {A B : Type} (c : Py A) (k : A -> Py B) (st : State) :
  preserves R c st ->
  (forall a st', c st = Return a st' -> preserves R (k a) st') ->
  preserves R (bind c k) st.
Proof.
  unfold preserves, bind. intros Hc Hk.
  destruct (c st) as [a st'|e st']; [|exact Hc].
  exact (R_trans _ _ _ Hc (Hk a st' eq_refl)).
Qed.

Lemma preserves_get_state {B : Type} (k : State -> Py B) (st : State) :
  preserves R (k st) st -> preserves R (bind get_state k) st.
Proof. intros H. exact H. Qed.

Lemma preserves_try_except {A : Type} (body : Py A) (handler : exn -> Py A)
  (st : State) :
  preserves R body st ->
  (forall e st', body st = Throw e st' -> preserves R (handler e) st') ->
  preserves R (try_except body handler) st.
Proof.
  unfold preserves, try_except. intros Hb Hh.
  destruct (body st) as [a st'|e st']; [exact Hb|].
  exact (R_trans _ _ _ Hb (Hh e st' eq_refl)).
Qed.

Lemma preserves_for_each {A : Type} (l : list A) (body : A -> Py unit) :
  (forall x, In x l -> forall st, preserves R (body x) st) ->
  forall st, preserves R (for_each l body) st.
Proof.
  induction l as [|x l IH]; intros Hb st; cbn [for_each].
  - apply preserves_ret.
  - apply preserves_bind; [apply Hb; now left|].
    intros _ st' _. apply IH. intros y Hy. apply Hb. now right.
Qed.

Lemma preserves_for_fold {A B : Type} (l : list A) (body : B -> A -> Py B) :
  (forall acc x, In x l -> forall st, preserves R (body acc x) st) ->
  forall acc st, preserves R (for_fold l body acc) st.
Proof.
  induction l as [|x l IH]; intros Hb acc st; cbn [for_fold].
  - apply preserves_ret.
  - apply preserves_bind; [apply Hb; now left|].
    intros acc' st' _. apply IH. intros a y Hy. apply Hb. now right.
Qed.

(** *** The passes

    What [R] is asked of the operations on the state: printing a line and
    replacing the document are steps of [R]; so is a download made for a
    URL that the cache does not hold, and so is writing a file under a name
    of [may_write]. *)

Variable may_write : string -> Prop.

Hypothesis R_print : forall line st, R st (printed line st).
Hypothesis R_soup : forall doc st, R st (final_state (set_soup doc st)).
Hypothesis R_fetch :
  forall url output_file st,
    Dict.get url (downloaded_resources st) = None ->
    R st (final_state (fetch_and_record url output_file st)).
Hypothesis R_write :
  forall name content st,
    may_write name -> R st (final_state (write_file name content st)).
Hypothesis css_may_write :
  forall name, Str.endswith name ".css" = true -> may_write name.
Hypothesis R_reset :
  forall st, R st (final_state (set_downloaded_resources [] st)).

Lemma preserves_print (line : string) (st : State) :
  preserves R (print line) st.
Proof. apply R_print. Qed.

Lemma localize_attribute_preserves (base_url output_file attr : string)
  (p : path) (st : State) :
  preserves R (localize_attribute base_url output_file attr p) st.
Proof.
  unfold localize_attribute. apply preserves_get_state.
  destruct (get_node (soup st) p) as [[s|name attrs kids]|];
    try apply preserves_ret.
  destruct (Dict.get attr attrs) as [url|]; [|apply preserves_ret].
  apply preserves_bind; [apply preserves_lift|].
  intros [url'|] st' E; [|apply preserves_ret].
  apply lift_returns in E as [_ ->].
  destruct (Dict.get url' (downloaded_resources st)) eqn:C.
  - apply R_soup.
  - apply preserves_bind; [now apply R_fetch|].
    intros [relative_path|] st1 _; [apply R_soup | apply preserves_ret].
Qed.

Lemma attribute_pass_preserves (base_url output_file : string) (st : State) :
  preserves R (attribute_pass base_url output_file) st.
Proof.
  revert st. unfold attribute_pass. apply preserves_for_each.
  intros sa _ st. apply preserves_get_state. apply preserves_for_each.
  intros p _ st1. apply localize_attribute_preserves.
Qed.

Lemma localize_css_file_url_preserves (base_url output_file : string)
  (css_content css_url : string) (st : State) :
  preserves R (localize_css_file_url base_url output_file css_content css_url)
    st.
Proof.
  unfold localize_css_file_url.
  apply preserves_bind; [apply preserves_lift|].
  intros url st' E. apply lift_returns in E as [_ ->].
  apply preserves_get_state.
  destruct (Str.startswith_any url ["http://"; "https://"]);
    cbn [andb]; [|apply preserves_ret].
  destruct (Dict.mem url (downloaded_resources st)) eqn:M;
    cbn [negb]; [apply preserves_ret|].
  apply preserves_bind; [apply R_fetch, dict_mem_get, M|].
  intros [relative_path|] st1 _; apply preserves_ret.
Qed.

Lemma process_css_file_preserves (base_url output_file css_file : string)
  (st : State) :
  may_write css_file ->
  preserves R (process_css_file base_url output_file css_file) st.
Proof.
  intros Hw. unfold process_css_file. apply preserves_try_except.
  - apply preserves_bind; [apply preserves_read_file|].
    intros css_content st1 _. apply preserves_bind.
    + apply preserves_for_fold. intros acc x _ s.
      apply localize_css_file_url_preserves.
    + intros css_content' st2 _. now apply R_write.
  - intros e st' _. apply R_print.
Qed.

Lemma external_css_pass_preserves (base_url output_file : string)
  (st : State) :
  preserves R (external_css_pass base_url output_file) st.
Proof.
  unfold external_css_pass. apply preserves_get_state.
  apply preserves_for_each. intros css_file Hin st1.
  apply process_css_file_preserves, css_may_write.
  apply in_map_iff in Hin as ([url local] & <- & Hin).
  apply filter_In in Hin as [_ H]. exact H.
Qed.

Lemma localize_style_url_preserves (base_url output_file : string)
  (css_content css_url : string) (st : State) :
  preserves R (localize_style_url base_url output_file css_content css_url) st.
Proof.
  unfold localize_style_url.
  apply preserves_bind; [apply preserves_lift|].
  intros url st' E. apply lift_returns in E as [_ ->].
  apply preserves_get_state.
  destruct (Str.startswith_any url ["http://"; "https://"]);
    cbn [andb]; [|apply preserves_ret].
  destruct (Dict.mem url (downloaded_resources st)) eqn:M;
    cbn [negb]; [apply preserves_ret|].
  apply preserves_bind; [apply R_fetch, dict_mem_get, M|].
  intros [relative_path|] st1 _; apply preserves_ret.
Qed.

Lemma process_style_tag_preserves (base_url output_file : string) (p : path)
  (st : State) :
  preserves R (process_style_tag base_url output_file p) st.
Proof.
  unfold process_style_tag. apply preserves_get_state.
  destruct (get_node (soup st) p) as [style_tag|]; [|apply preserves_ret].
  destruct (tag_string style_tag) as [css_content|]; [|apply preserves_ret].
  destruct (posixpath.nonempty css_content); [|apply preserves_ret].
  apply preserves_bind.
  - apply preserves_for_fold. intros acc x _ s.
    apply localize_style_url_preserves.
  - intros css_content' st1 _. apply preserves_get_state. apply R_soup.
Qed.

Lemma inline_style_pass_preserves (base_url output_file : string)
  (st : State) :
  preserves R (inline_style_pass base_url output_file) st.
Proof.
  unfold inline_style_pass. apply preserves_get_state.
  apply preserves_for_each. intros p _ st1.
  apply process_style_tag_preserves.
Qed.

Lemma localize_style_attribute_url_preserves (base_url output_file : string)
  (style_content css_url : string) (st : State) :
  preserves R
    (localize_style_attribute_url base_url output_file style_content css_url)
    st.
Proof.
  unfold localize_style_attribute_url.
  apply preserves_bind; [apply preserves_lift|].
  intros url st' E. apply lift_returns in E as [_ ->].
  apply preserves_get_state.
  destruct (Dict.get url (downloaded_resources st)) eqn:C;
    [apply preserves_ret|].
  destruct (Str.startswith_any url ["http://"; "https://"]);
    [|apply preserves_ret].
  apply preserves_bind; [now apply R_fetch|].
  intros [relative_path|] st1 _; apply preserves_ret.
Qed.

Lemma process_style_attribute_preserves (base_url output_file : string)
  (p : path) (st : State) :
  preserves R (process_style_attribute base_url output_file p) st.
Proof.
  unfold process_style_attribute. apply preserves_get_state.
  destruct (get_node (soup st) p) as [[s|name attrs kids]|];
    try apply preserves_ret.
  cbv zeta.
  destruct (Str.contains "url(" _); [|apply preserves_ret].
  apply preserves_bind.
  - apply preserves_for_fold. intros acc x _ s.
    apply localize_style_attribute_url_preserves.
  - intros style_content' st1 _. apply preserves_get_state. apply R_soup.
Qed.

Lemma style_attribute_pass_preserves (base_url output_file : string)
  (st : State) :
  preserves R (style_attribute_pass base_url output_file) st.
Proof.
  unfold style_attribute_pass. apply preserves_get_state.
  apply preserves_for_each. intros p _ st1.
  apply process_style_attribute_preserves.
Qed.

Lemma rewrite_passes_preserves (base_url output_file : string) (st : State) :
  preserves R (rewrite_passes base_url output_file) st.
Proof.
  unfold rewrite_passes.
  apply preserves_bind; [apply attribute_pass_preserves|]. intros _ st1 _.
  apply preserves_bind; [apply external_css_pass_preserves|]. intros _ st2 _.
  apply preserves_bind; [apply inline_style_pass_preserves|]. intros _ st3 _.
  apply style_attribute_pass_preserves.
Qed.

Lemma sanitize_preserves (link_replacement : string) (st : State) :
  preserves R (sanitize link_replacement) st.
Proof. unfold sanitize. apply preserves_get_state. apply R_soup. Qed.

(** *** The jobs *)

Variable html_parser : string -> document.
Variable prettify : document -> string.

Lemma process_html_file_preserves
  (input_file output_file link_replacement base_url : string) (st : State) :
  may_write output_file ->
  preserves R
    (process_html_file html_parser prettify input_file output_file
       link_replacement base_url) st.
Proof.
  intros Hw. unfold process_html_file.
  apply preserves_bind; [apply preserves_print|]. intros _ s1 _.
  apply preserves_bind; [apply preserves_print|]. intros _ s2 _.
  apply preserves_bind; [apply preserves_read_file|]. intros html s3 _.
  apply preserves_bind; [apply R_soup|]. intros _ s4 _.
  apply preserves_bind; [apply R_reset|]. intros _ s5 _.
  apply preserves_bind; [apply preserves_print|]. intros _ s6 _.
  apply preserves_bind; [apply attribute_pass_preserves|]. intros _ s7 _.
  apply preserves_bind; [apply preserves_print|]. intros _ s8 _.
  apply preserves_bind; [apply external_css_pass_preserves|]. intros _ s9 _.
  apply preserves_bind; [apply preserves_print|]. intros _ s10 _.
  apply preserves_bind; [apply inline_style_pass_preserves|]. intros _ s11 _.
  apply preserves_bind; [apply preserves_print|]. intros _ s12 _.
  apply preserves_bind; [apply style_attribute_pass_preserves|].
  intros _ s13 _.
  apply preserves_bind; [apply sanitize_preserves|]. intros _ s14 _.
  apply preserves_get_state.
  apply preserves_bind; [now apply R_write|]. intros _ s15 _.
  apply preserves_bind; [apply preserves_print|]. intros _ s16 _.
  apply preserves_print.
Qed.

Lemma process_job_preserves (job : Job) (st : State) :
  may_write (output_filename job) ->
  preserves R (process_job html_parser prettify job) st.
Proof.
  intros Hw. unfold process_job. apply preserves_try_except.
  - now apply process_html_file_preserves.
  - intros e st' _. destruct e; apply R_print.
Qed.

Lemma process_all_preserves (jobs : list Job) (st : State) :
  (forall job, In job jobs -> may_write (output_filename job)) ->
  preserves R (process_all html_parser prettify jobs) st.
Proof.
  intros Hw. unfold process_all. apply preserves_bind.
  - apply preserves_for_each. intros job Hin s.
    now apply process_job_preserves, Hw.
  - intros _ st' _. apply preserves_print.
Qed.

End Preserves.

(** ** What a download leaves in the state *)

(** the state after [download_resource]: one request at most, for an http
    or https URL, and one file at most, written under [local_path] *)
Lemma download_resource_final (url local_path : string) (st : State) :
  exists ok st',
    download_resource url local_path st = Return ok st'
    /\ cwd st' = cwd st /\ soup st' = soup st
    /\ downloaded_resources st' = downloaded_resources st
    /\ requests_http st st'
    /\ ((ok = false /\ files st' = files st)
        \/ (ok = true
            /\ exists content,
                 files st'
                 = Dict.set (posixpath.abspath (cwd st) local_path) content
                     (files st))).
Proof.
  assert (Hfetch : forall u, is_http u = true ->
            exists ok st',
              (print ("  Downloading: " ++ u) ;;
               r <- http_get u ;;
               match r with
               | Body content =>
                   write_file local_path content ;;
                   print ("    Saved to: " ++ local_path) ;;
                   ret true
               | Failure msg =>
                   print ("    Failed to download " ++ u ++ ": " ++ msg) ;;
                   ret false
               end) st = Return ok st'
              /\ cwd st' = cwd st /\ soup st' = soup st
              /\ downloaded_resources st' = downloaded_resources st
              /\ requests_http st st'
              /\ ((ok = false /\ files st' = files st)
                  \/ (ok = true
                      /\ exists content,
                           files st'
                           = Dict.set (posixpath.abspath (cwd st) local_path)
                               content (files st)))).
  { intros u Hu. unfold bind, print, http_get. cbn.
    destruct (server st (List.length (requests st)) u) as [content|msg];
      cbn; eexists; eexists; (split; [reflexivity|]); cbn;
      repeat (split; [reflexivity|]);
      (split; [exists [u]; split; [reflexivity | now constructor]|]).
    - right. split; [reflexivity|]. now exists content.
    - now left. }
  unfold download_resource.
  destruct (Str.startswith url "//") eqn:E1.
  - apply Hfetch. unfold is_http, Str.startswith_any.
    cbn. now rewrite E1.
  - destruct (negb (Str.startswith_any url ["http://"; "https://"])) eqn:E2.
    + exists false, st. split; [reflexivity|].
      repeat (split; [reflexivity|]).
      split; [|now left]. exists []. split; [now rewrite app_nil_r|constructor].
    + apply Hfetch. now apply negb_false_iff in E2.
Qed.

(** the state after [record_download]: the cache has one more entry, or the
    relative path could not be computed and nothing changed *)
Lemma record_download_final (url local_path output_file : string)
  (st : State) :
  let st' := final_state (record_download url local_path output_file st) in
  cwd st' = cwd st /\ soup st' = soup st /\ requests st' = requests st
  /\ files st' = files st
  /\ (downloaded_resources st' = downloaded_resources st
      \/ exists relative_path,
           downloaded_resources st'
           = Dict.set url relative_path (downloaded_resources st)).
Proof.
  unfold record_download, bind, get_state.
  destruct (posixpath.relpath (cwd st) local_path
              (posixpath.dirname output_file)) as [rel|e]; cbn.
  - repeat (split; [reflexivity|]). right. eexists. reflexivity.
  - repeat (split; [reflexivity|]). now left.
Qed.

Lemma fetch_and_record_final (url output_file : string) (st : State) :
  let st' := final_state (fetch_and_record url output_file st) in
  cwd st' = cwd st /\ soup st' = soup st
  /\ requests_http st st'
  /\ (files st' = files st
      \/ exists local_path content,
           create_local_filename url resources_dir = Ok local_path
           /\ files st'
              = Dict.set (posixpath.abspath (cwd st) local_path) content
                  (files st))
  /\ (downloaded_resources st' = downloaded_resources st
      \/ exists relative_path local_path content,
           create_local_filename url resources_dir = Ok local_path
           /\ files st'
              = Dict.set (posixpath.abspath (cwd st) local_path) content
                  (files st)
           /\ downloaded_resources st'
              = Dict.set url relative_path (downloaded_resources st)).
Proof.
  unfold fetch_and_record, bind.
  destruct (create_local_filename url resources_dir) as [local_path|e] eqn:E.
  2: { cbn. repeat (split; [reflexivity|]).
       split; [|split; now left].
       exists []. split; [now rewrite app_nil_r | constructor]. }
  change (lift (Ok local_path) st) with (Return local_path st).
  cbv beta iota.
  destruct (download_resource_final url local_path st)
    as (ok & st1 & -> & Hc & Hs & Hd & Hr & Hf).
  assert (Hf' : files st1 = files st
                \/ exists local_path0 content,
                     Ok local_path = Ok local_path0
                     /\ files st1
                        = Dict.set (posixpath.abspath (cwd st) local_path0)
                            content (files st)).
  { destruct Hf as [[_ Hf]|(_ & content & Hf)]; [now left|].
    right. now exists local_path, content. }
  destruct ok; cbv beta iota.
  - pose proof (record_download_final url local_path output_file st1)
      as (Hc2 & Hs2 & Hr2 & Hf2 & Hd2).
    split; [congruence|]. split; [congruence|]. split.
    { destruct Hr as (new & Hn & Hall). exists new. split; [congruence|auto]. }
    split.
    { rewrite Hf2. exact Hf'. }
    rewrite <- Hd. destruct Hd2 as [Hd2|[rel Hd2]]; [now left|].
    destruct Hf as [[Hok _]|(_ & content & Hf)]; [discriminate Hok|].
    right. exists rel, local_path, content.
    split; [reflexivity|]. split; [now rewrite Hf2 | exact Hd2].
  - cbn. do 3 (split; [assumption|]). split; [exact Hf' | left; exact Hd].
Qed.

(** ** Every request is for an http or https URL *)

Lemma requests_http_refl (st : State) : requests_http st st.
Proof. exists []. split; [now rewrite app_nil_r | constructor]. Qed.

Lemma requests_http_trans (a b c : State) :
  requests_http a b -> requests_http b c -> requests_http a c.
Proof.
  intros (n1 & E1 & F1) (n2 & E2 & F2). exists (n1 ++ n2)%list. split.
  - now rewrite E2, E1, <- app_assoc.
  - apply Forall_app. now split.
Qed.

Lemma requests_http_same (st st' : State) :
  requests st' = requests st -> requests_http st st'.
Proof.
  intros H. exists []. split; [now rewrite app_nil_r | constructor].
Qed.

(** X7. The requests that a run makes, whatever the jobs, the pages and the
    style sheets: each one is for a URL that starts with [http://] or
    [https://]; no reference of a page makes the program ask for a URL of
    another scheme. The requests made before the run are kept, in their
    order. *)
Theorem process_all_requests_http (html_parser : string -> document)
  (prettify : document -> string) (jobs : list Job) (st : State) :
  requests_http st (final_state (process_all html_parser prettify jobs st)).
Proof.
  apply (process_all_preserves requests_http requests_http_refl
           requests_http_trans (fun _ => True)); try (intros; exact I);
    intros; try (apply requests_http_same; reflexivity).
  apply fetch_and_record_final.
Qed.

(** ** The cache within a job *)

Lemma cache_kept_refl (st : State) : cache_kept st st.
Proof. intros k v H. exact H. Qed.

Lemma cache_kept_trans (a b c : State) :
  cache_kept a b -> cache_kept b c -> cache_kept a c.
Proof. intros H1 H2 k v H. apply H2, H1, H. Qed.

Lemma cache_kept_same (st st' : State) :
  downloaded_resources st' = downloaded_resources st -> cache_kept st st'.
Proof. intros E k v H. now rewrite E. Qed.

Lemma fetch_and_record_cache_kept (url output_file : string) (st : State) :
  Dict.get url (downloaded_resources st) = None ->
  cache_kept st (final_state (fetch_and_record url output_file st)).
Proof.
  intros Hmiss.
  destruct (fetch_and_record_final url output_file st)
    as (_ & _ & _ & _ & [Hd|(rel & local_path & content & _ & _ & Hd)]).
  - now apply cache_kept_same.
  - intros k v H. rewrite Hd. rewrite dict_get_set_other; [exact H|].
    intros ->. congruence.
Qed.

(** X8. Through the four passes of a job the cache only grows: a URL that was
    recorded with a local path keeps that path until the end of the job, so
    every later reference to it that the cache serves gets the same path. *)
Theorem rewrite_passes_cache_kept (base_url output_file : string)
  (st : State) :
  cache_kept st (final_state (rewrite_passes base_url output_file st)).
Proof.
  apply (rewrite_passes_preserves cache_kept cache_kept_refl cache_kept_trans
           (fun _ => True)); try (intros; exact I);
    intros; try (apply cache_kept_same; reflexivity).
  now apply fetch_and_record_cache_kept.
Qed.

(** ** The files that a run can change *)

Lemma files_kept_refl (outputs : list string) (st : State) :
  files_kept outputs st st.
Proof. split; [reflexivity|]. intros k. now left. Qed.

Lemma files_kept_trans (outputs : list string) (a b c : State) :
  files_kept outputs a b -> files_kept outputs b c -> files_kept outputs a c.
Proof.
  intros [C1 H1] [C2 H2]. split; [congruence|]. intros k.
  rewrite C1 in H2.
  destruct (H2 k) as [E2|H]; [|now right].
  destruct (H1 k) as [E1|H]; [|now right].
  left. congruence.
Qed.

Lemma files_kept_same (outputs : list string) (st st' : State) :
  cwd st' = cwd st -> files st' = files st -> files_kept outputs st st'.
Proof. intros C F. split; [exact C|]. intros k. left. now rewrite F. Qed.

Lemma files_kept_set (outputs : list string) (st st' : State)
  (name content : string) :
  cwd st' = cwd st ->
  files st' = Dict.set (posixpath.abspath (cwd st) name) content (files st) ->
  resource_file (cwd st) (posixpath.abspath (cwd st) name)
  \/ writable outputs name ->
  files_kept outputs st st'.
Proof.
  intros C F H. split; [exact C|]. intros k.
  destruct (String.eqb_spec k (posixpath.abspath (cwd st) name)) as [->|Hk].
  - right. destruct H as [H|H]; [now left|]. right. now exists name.
  - left. rewrite F. now apply dict_get_set_other.
Qed.

Lemma fetch_and_record_files_kept (outputs : list string)
  (url output_file : string) (st : State) :
  files_kept outputs st (final_state (fetch_and_record url output_file st)).
Proof.
  destruct (fetch_and_record_final url output_file st)
    as (Hc & _ & _ & [Hf|(local_path & content & Hl & Hf)] & _).
  - now apply files_kept_same.
  - apply (files_kept_set _ _ _ local_path content Hc Hf).
    left. now exists url, local_path.
Qed.

(** X9. The files that a run leaves as it found them: every file except the
    local files of the resources directory, the output files of the jobs
    and the files that the program opens under a name ending in [.css]. A
    file that is none of these (an input file among them) has the same
    content after the run, and a file that did not exist is not created. *)
Theorem process_all_files_kept (html_parser : string -> document)
  (prettify : document -> string) (jobs : list Job) (st : State) :
  files_kept (map output_filename jobs) st
    (final_state (process_all html_parser prettify jobs st)).
Proof.
  apply (process_all_preserves (files_kept (map output_filename jobs))
           (files_kept_refl _) (files_kept_trans _)
           (writable (map output_filename jobs)));
    try (intros; apply files_kept_same; reflexivity).
  - intros url output_file s _. apply fetch_and_record_files_kept.
  - intros name content s Hw.
    apply (files_kept_set _ _ _ name content); [reflexivity|reflexivity|].
    now right.
  - intros name H. now right.
  - intros job Hin. left. now apply in_map.
Qed.

(** ** The attribute passes change values only *)

Lemma map_map_nth {A B : Type} (g : A -> B) (f : A -> A) (l : list A)
  (i : nat) (x : A) :
  nth_error l i = Some x -> g (f x) = g x ->
  map g (map_nth i f l) = map g l.
Proof.
  revert i. induction l as [|y l IH]; intros [|i]; simpl; try discriminate.
  - intros H E. injection H as ->. now rewrite E.
  - intros H E. now rewrite (IH i H E).
Qed.

Section Blank.

Variable erased : string -> bool.

Lemma blank_update (f : node -> node) (p : path) :
  forall doc n,
    get_node doc p = Some n -> blank erased (f n) = blank erased n ->
    map (blank erased) (update_node doc p f) = map (blank erased) doc.
Proof.
  induction p as [|i q IH]; intros doc n Hg Hf; [discriminate Hg|].
  cbn [get_node] in Hg. cbn [update_node].
  destruct (nth_error doc i) as [n0|] eqn:E; [|discriminate Hg].
  apply (map_map_nth _ _ _ _ n0 E).
  destruct q as [|j q'].
  - injection Hg as ->. exact Hf.
  - destruct n0 as [s|name attrs kids]; [discriminate Hg|].
    cbn [blank]. f_equal. exact (IH kids n Hg Hf).
Qed.

Lemma blank_set (attr value : string) (attrs : Dict.t) :
  erased attr = true -> Dict.mem attr attrs = true ->
  map (fun kv : string * string =>
         if erased (fst kv) then (fst kv, EmptyString) else kv)
    (Dict.set attr value attrs)
  = map (fun kv : string * string =>
           if erased (fst kv) then (fst kv, EmptyString) else kv) attrs.
Proof.
  intros He. unfold Dict.mem.
  induction attrs as [|[k w] d IH]; simpl; [discriminate|].
  destruct (String.eqb attr k) eqn:E; simpl.
  - apply String.eqb_eq in E. subst k. now rewrite He.
  - intros H. now rewrite IH.
Qed.

Lemma blank_set_attr (attr value : string) (n : node) :
  erased attr = true -> has_attr attr n = true ->
  blank erased (set_attr attr value n) = blank erased n.
Proof.
  destruct n as [s|name attrs kids]; [reflexivity|].
  cbn [has_attr set_attr blank]. intros He H. now rewrite blank_set.
Qed.

Lemma same_blank_refl (st : State) : same_blank erased st st.
Proof. reflexivity. Qed.

Lemma same_blank_trans (a b c : State) :
  same_blank erased a b -> same_blank erased b c -> same_blank erased a c.
Proof. unfold same_blank. congruence. Qed.

End Blank.

Lemma same_soup_refl (st : State) : same_soup st st.
Proof. reflexivity. Qed.

Lemma same_soup_trans (a b c : State) :
  same_soup a b -> same_soup b c -> same_soup a c.
Proof. unfold same_soup. congruence. Qed.

Lemma fetch_and_record_same_soup (url output_file : string) (st : State) :
  same_soup st (final_state (fetch_and_record url output_file st)).
Proof. apply fetch_and_record_final. Qed.

(** an attribute that the element has is given a value, in a state whose
    document is the one that was read *)
Lemma set_attr_same_blank (erased : string -> bool) (attr value : string)
  (p : path) (n : node) (st st1 : State) :
  erased attr = true ->
  get_node (soup st) p = Some n -> has_attr attr n = true ->
  soup st1 = soup st ->
  preserves (same_blank erased)
    (set_soup (update_node (soup st) p (set_attr attr value))) st1.
Proof.
  intros He G H Hs. unfold preserves, same_blank. cbn. rewrite Hs.
  apply (blank_update _ _ _ _ _ G). now apply blank_set_attr.
Qed.

Lemma localize_attribute_same_blank (erased : string -> bool)
  (base_url output_file attr : string) (p : path) (st : State) :
  erased attr = true ->
  preserves (same_blank erased)
    (localize_attribute base_url output_file attr p) st.
Proof.
  intros He. set (R := same_blank erased).
  pose proof (same_blank_refl erased) as Rr.
  pose proof (same_blank_trans erased) as Rt. fold R in Rr, Rt.
  unfold localize_attribute. apply preserves_get_state.
  destruct (get_node (soup st) p) as [[s|name attrs kids]|] eqn:G;
    try apply (preserves_ret R Rr).
  destruct (Dict.get attr attrs) as [url|] eqn:D;
    [|apply (preserves_ret R Rr)].
  assert (H : has_attr attr (Tag name attrs kids) = true).
  { cbn. unfold Dict.mem. now rewrite D. }
  apply (preserves_bind R Rt); [apply (preserves_lift R Rr)|].
  intros [url'|] st' E; [|apply (preserves_ret R Rr)].
  apply lift_returns in E as [_ ->].
  destruct (Dict.get url' (downloaded_resources st)) as [local|].
  - now apply (set_attr_same_blank _ _ _ _ _ _ _ He G H).
  - apply (preserves_bind R Rt).
    + unfold preserves, R, same_blank.
      now rewrite (fetch_and_record_same_soup url' output_file st).
    + intros [relative_path|] st1 E1; [|apply (preserves_ret R Rr)].
      apply (set_attr_same_blank _ _ _ _ _ _ _ He G H).
      pose proof (fetch_and_record_same_soup url' output_file st) as Hs.
      now rewrite E1 in Hs.
Qed.

Lemma process_style_attribute_same_blank (erased : string -> bool)
  (base_url output_file : string) (p : path) (st : State) :
  erased "style" = true ->
  preserves (same_blank erased)
    (process_style_attribute base_url output_file p) st.
Proof.
  intros He. set (R := same_blank erased).
  pose proof (same_blank_refl erased) as Rr.
  pose proof (same_blank_trans erased) as Rt. fold R in Rr, Rt.
  unfold process_style_attribute. apply preserves_get_state.
  destruct (get_node (soup st) p) as [[s|name attrs kids]|] eqn:G;
    try apply (preserves_ret R Rr).
  cbv zeta.
  destruct (Dict.get "style" attrs) as [style_content|] eqn:D.
  2: { change (Str.contains "url(" EmptyString) with false. cbv iota.
       apply (preserves_ret R Rr). }
  assert (H : has_attr "style" (Tag name attrs kids) = true).
  { cbn [has_attr]. unfold Dict.mem. now rewrite D. }
  destruct (Str.contains "url(" style_content);
    [|apply (preserves_ret R Rr)].
  pose proof (preserves_for_fold same_soup same_soup_refl same_soup_trans
                (findall_url style_content)
                (localize_style_attribute_url base_url output_file)
                (fun acc x _ s =>
                   localize_style_attribute_url_preserves same_soup
                     same_soup_refl same_soup_trans
                     (fun u o s' _ => fetch_and_record_same_soup u o s')
                     base_url output_file acc x s)
                style_content st) as Hs.
  unfold preserves, same_soup in Hs.
  apply (preserves_bind R Rt).
  - unfold preserves, R, same_blank. now rewrite Hs.
  - intros style_content' st1 E. rewrite E in Hs. cbn [final_state] in Hs.
    apply preserves_get_state. rewrite Hs.
    now apply (set_attr_same_blank _ _ _ _ _ _ _ He G H).
Qed.

(** X10. The pass over the resource attributes changes values of the attributes
    of its table ([src], [content], [href]) and nothing else, and the pass
    over the [style] attributes changes values of [style] attributes and
    nothing else: after each of them the document has the same elements
    with the same names, the same attribute names in the same order, the
    same values for the other attributes, the same texts and the same
    children; no element and no attribute is added or removed. *)
Theorem attribute_passes_keep_shape (base_url output_file : string)
  (st : State) :
  same_blank resource_attribute st
    (final_state (attribute_pass base_url output_file st))
  /\ same_blank (String.eqb "style") st
       (final_state (style_attribute_pass base_url output_file st)).
Proof.
  split.
  - revert st. unfold attribute_pass.
    apply (preserves_for_each _ (same_blank_refl resource_attribute)
             (same_blank_trans resource_attribute)).
    intros sa Hin st. apply preserves_get_state.
    apply (preserves_for_each _ (same_blank_refl resource_attribute)
             (same_blank_trans resource_attribute)).
    intros p _ st1. apply localize_attribute_same_blank.
    unfold resource_attribute. apply existsb_exists. exists sa.
    split; [exact Hin | apply String.eqb_refl].
  - unfold style_attribute_pass.
    apply (preserves_get_state (same_blank (String.eqb "style"))).
    apply (preserves_for_each _ (same_blank_refl (String.eqb "style"))
             (same_blank_trans (String.eqb "style"))).
    intros p _ st1. now apply process_style_attribute_same_blank.
Qed.

(** ** Downloads, once more *)

(** X11. When [download_resource] answers [True], the server replied to the
    request with a body, and the local file, read back, holds that body. *)
Theorem download_resource_saves (url local_path : string) (st st' : State) :
  download_resource url local_path st = Return true st' ->
  exists content,
    next_reply st (request_url url) = Body content
    /\ read_file local_path st' = Return content st'.
Proof.
  assert (Hfetch : forall u,
            (print ("  Downloading: " ++ u) ;;
             r <- http_get u ;;
             match r with
             | Body content =>
                 write_file local_path content ;;
                 print ("    Saved to: " ++ local_path) ;;
                 ret true
             | Failure msg =>
                 print ("    Failed to download " ++ u ++ ": " ++ msg) ;;
                 ret false
             end) st = Return true st' ->
            exists content,
              next_reply st u = Body content
              /\ read_file local_path st' = Return content st').
  { intros u. unfold bind, print, http_get, next_reply. cbn.
    destruct (server st (List.length (requests st)) u) as [content|msg];
      cbn; intros H; [|discriminate H].
    injection H as <-. exists content. split; [reflexivity|].
    unfold read_file. cbn. now rewrite dict_get_set_same. }
  unfold download_resource, request_url.
  destruct (Str.startswith url "//"); [apply Hfetch|].
  destruct (negb (Str.startswith_any url ["http://"; "https://"]));
    [discriminate | apply Hfetch].
Qed.

Lemma download_resource_saves_witness :
  exists content,
    next_reply scenario_state (request_url "//example.com/logo.png")
    = Body content
    /\ read_file "resources/logo.png"
         (final_state
            (download_resource "//example.com/logo.png" "resources/logo.png"
               scenario_state))
       = Return content
           (final_state
              (download_resource "//example.com/logo.png"
                 "resources/logo.png" scenario_state)).
Proof.
  apply (download_resource_saves "//example.com/logo.png").
  vm_compute. reflexivity.
Defined.

(** ** The pass over the downloaded style sheets *)

Lemma process_css_file_returns (base_url output_file css_file : string)
  (st : State) :
  exists st', process_css_file base_url output_file css_file st = Return tt st'.
Proof.
  unfold process_css_file, try_except.
  match goal with |- context [match ?b st with _ => _ end] =>
    destruct (b st) as [[] st'|e st'] end;
    eexists; reflexivity.
Qed.

(** X12. The pass over the downloaded style sheets never raises: whatever goes
    wrong with one style sheet (the file cannot be read, a reference cannot
    be resolved), the error is caught and the pass goes on to the end, so
    an error in a style sheet never makes the job fail. *)
Theorem external_css_pass_returns (base_url output_file : string)
  (st : State) :
  exists st', external_css_pass base_url output_file st = Return tt st'.
Proof.
  unfold external_css_pass, bind, get_state.
  apply for_each_returns. intros css_file s.
  apply process_css_file_returns.
Qed.



(** ** One job *)

Lemma bind_returns {A B : Type} (c : Py A) (k : A -> Py B) (st : State)
  (b : B) (st' : State) :
  bind c k st = Return b st' ->
  exists a s, c st = Return a s /\ k a s = Return b st'.
Proof.
  unfold bind. destruct (c st) as [a s|e s]; [|discriminate].
  intros H. now exists a, s.
Qed.

Section JobProperties.

Variable html_parser : string -> document.
Variable prettify : document -> string.

(** X14. A job starts from the page it reads and from an empty cache: when the
    input file exists, the outcome of [process_html_file] and the state it
    leaves do not depend on the document and on the cache that the state
    held before, those of an earlier job among them. *)
Theorem process_html_file_fresh
  (input_file output_file link_replacement base_url html : string)
  (doc : document) (cache : Dict.t) (st : State) :
  Dict.get (posixpath.abspath (cwd st) input_file) (files st) = Some html ->
  process_html_file html_parser prettify input_file output_file
    link_replacement base_url (with_store doc cache st)
  = process_html_file html_parser prettify input_file output_file
      link_replacement base_url st.
Proof.
  intros H.
  unfold process_html_file, bind at 1 2 3 4 5 18 19 20 21 22.
  unfold print, read_file, set_soup, set_downloaded_resources, with_store.
  cbn [cwd files server requests stdout soup downloaded_resources].
  rewrite H. reflexivity.
Qed.


(** X16. When a job completes, the output file, read back, holds the printed
    form of the document the job ended with, and that document has no
    [script] element and no [a] element with an [href] other than the link
    replacement or with a [ping]. *)
Theorem process_html_file_output
  (input_file output_file link_replacement base_url : string)
  (st st' : State) :
  process_html_file html_parser prettify input_file output_file
    link_replacement base_url st = Return tt st' ->
  read_file output_file st' = Return (prettify (soup st')) st'
  /\ forall x m,
       In (x, m) (descendants (soup st')) ->
       is_tag "script" m = false
       /\ (is_link m = true ->
           node_attr "href" m = Some link_replacement
           /\ has_attr "ping" m = false).
Proof.
  intros H. unfold process_html_file in H.
  do 13 (apply bind_returns in H as (? & ? & _ & H)).
  apply bind_returns in H as ([] & s14 & Hsan & H).
  unfold sanitize, bind, get_state, set_soup in Hsan.
  injection Hsan as <-.
  unfold bind, get_state, write_file, print in H.
  cbn [cwd files server requests stdout soup downloaded_resources] in H.
  injection H as <-. split.
  - unfold read_file.
    cbn [cwd files server requests stdout soup downloaded_resources].
    now rewrite dict_get_set_same.
  - cbn [soup]. intros p m Hin.
    exact (sanitize_document_nodes link_replacement _ p m Hin).
Qed.

End JobProperties.

Lemma process_html_file_fresh_witness :
  process_html_file scenario_parser scenario_prettify "in.html" "out.html"
    "#" "https://example.com"
    (with_store scenario_document [("https://example.com/logo.png", "x.png")]
       scenario_state)
  = process_html_file scenario_parser scenario_prettify "in.html" "out.html"
      "#" "https://example.com" scenario_state.
Proof.
  apply (process_html_file_fresh scenario_parser scenario_prettify "in.html"
           "out.html" "#" "https://example.com" "<html>").
  vm_compute. reflexivity.
Defined.


Lemma process_html_file_output_witness :
  exists st',
    process_html_file scenario_parser scenario_prettify "in.html" "out.html"
      "#" "https://example.com" scenario_state = Return tt st'
    /\ read_file "out.html" st' = Return (scenario_prettify (soup st')) st'
    /\ forall x m,
         In (x, m) (descendants (soup st')) ->
         is_tag "script" m = false
         /\ (is_link m = true ->
             node_attr "href" m = Some "#" /\ has_attr "ping" m = false).
Proof.
  destruct (process_html_file scenario_parser scenario_prettify "in.html"
              "out.html" "#" "https://example.com" scenario_state)
    as [[] st'|e st'] eqn:E.
  - exists st'. split; [reflexivity|].
    exact (process_html_file_output scenario_parser scenario_prettify
             "in.html" "out.html" "#" "https://example.com" scenario_state
             st' E).
  - vm_compute in E. discriminate E.
Defined.

(** ** The sanitizer, once more *)

Lemma is_tag_remove_scripts_node (name : string) (n : node) :
  is_tag name (remove_scripts_node n) = is_tag name n.
Proof. destruct n; reflexivity. Qed.

Lemma remove_scripts_node_idempotent (n : node) :
  remove_scripts_node (remove_scripts_node n) = remove_scripts_node n.
Proof.
  induction n as [s | name attrs kids IH] using node_induction;
    [reflexivity|].
  rewrite !remove_scripts_node_tag. f_equal.
  induction IH as [|k l Hk _ IHl]; [reflexivity|].
  cbn [remove_scripts]. destruct (is_tag "script" k) eqn:E; [exact IHl|].
  cbn [remove_scripts]. rewrite is_tag_remove_scripts_node, E.
  now rewrite Hk, IHl.
Qed.

(** X17. Removing the scripts of a document that went through the removal
    changes nothing: the first removal leaves no [script] element at any
    depth, and it leaves every other node where it was. *)
Theorem remove_scripts_idempotent (doc : document) :
  remove_scripts (remove_scripts doc) = remove_scripts doc.
Proof.
  induction doc as [|k l IH]; [reflexivity|].
  cbn [remove_scripts]. destruct (is_tag "script" k) eqn:E; [exact IH|].
  cbn [remove_scripts]. rewrite is_tag_remove_scripts_node, E.
  now rewrite remove_scripts_node_idempotent, IH.
Qed.

(** ** What the loop over the links leaves alone *)

Lemma neutralize_link_other_attributes (r : string) (n : node) :
  other_attributes_kept n (neutralize_link r n).
Proof.
  destruct n as [s|name attrs kids]; intros attr Hh Hp; [reflexivity|].
  cbn [neutralize_link node_attr].
  destruct (Dict.mem "ping" (Dict.set "href" r attrs)).
  - rewrite dict_get_del_other by exact Hp. now apply dict_get_set_other.
  - now apply dict_get_set_other.
Qed.

Lemma label_node_attr (attr : string) (m m' : node) :
  label m' = label m -> node_attr attr m' = node_attr attr m.
Proof.
  destruct m, m'; simpl; intros H; try discriminate; try reflexivity.
  now injection H as _ ->.
Qed.

Lemma links_frame_loop (r : string) (d0 : document) (ps : list path) :
  forall d,
    (forall x m',
       In (x, m') (descendants d) ->
       exists m, In (x, m) (descendants d0) /\ other_attributes_kept m m') ->
    forall x m',
      In (x, m')
        (descendants
           (fold_left (fun d p => update_node d p (neutralize_link r)) ps d)) ->
      exists m, In (x, m) (descendants d0) /\ other_attributes_kept m m'.
Proof.
  induction ps as [|p ps IH]; intros d Inv; [exact Inv|].
  cbn [fold_left]. apply IH. intros x m'' H.
  apply (descendants_update _ (neutralize_link_keeps_children r)) in H.
  destruct H as (m' & Hm' & Hp & Hnp).
  destruct (Inv _ _ Hm') as (m & Hm & Hk).
  exists m. split; [exact Hm|]. intros attr Hh Hpg.
  rewrite <- (Hk attr Hh Hpg).
  destruct (list_eq_dec Nat.eq_dec x p) as [E|N].
  - rewrite (label_node_attr attr _ _ (Hp E)).
    now apply neutralize_link_other_attributes.
  - exact (label_node_attr attr _ _ (Hnp N)).
Qed.

Lemma find_paths_sound (f : node -> bool) (doc : document) (x : path) :
  In x (find_paths f doc) ->
  exists m, In (x, m) (descendants doc) /\ f m = true.
Proof.
  unfold find_paths. intros H.
  apply in_map_iff in H as ([y m] & E & H). cbn in E. subst y.
  apply filter_In in H as [H Hf]. now exists m.
Qed.

(** X18. The loop over the links changes the [href] and the [ping] of [a]
    elements that have an [href], and nothing else in the elements: every
    element of the document it leaves was at the same place before, with the
    same name and with the same value for every attribute other than [href]
    and [ping]; an element that is not such a link has all its attributes
    as they were. *)
Theorem neutralize_links_frame (r : string) (doc : document) (x : path)
  (m' : node) :
  In (x, m') (descendants (neutralize_links r doc)) ->
  exists m,
    In (x, m) (descendants doc)
    /\ name_of m' = name_of m
    /\ other_attributes_kept m m'
    /\ (is_link m = false -> label m' = label m).
Proof.
  intros H.
  destruct (neutralize_links_invariant r doc x m' H)
    as (m & Hm & Hname & _ & Hnot).
  exists m. split; [exact Hm|]. split; [exact Hname|]. split.
  - destruct (links_frame_loop r doc (find_paths is_link doc) doc
                (fun y n Hn => ex_intro _ n (conj Hn (fun _ _ _ => eq_refl)))
                x m' H) as (m0 & Hm0 & Hk).
    apply descendants_get_node in Hm0. apply descendants_get_node in Hm as G.
    rewrite G in Hm0. injection Hm0 as <-. exact Hk.
  - intros Hl. apply Hnot. intros Hin.
    apply find_paths_sound in Hin as (m0 & Hm0 & Hf).
    apply descendants_get_node in Hm0. apply descendants_get_node in Hm.
    rewrite Hm in Hm0. injection Hm0 as <-. congruence.
Qed.

Lemma neutralize_links_frame_witness :
  exists m,
    In ([0], m) (descendants scenario_document)
    /\ name_of (Tag "img" [("src", "resources/logo_78761c80.png")] [])
       = name_of m
    /\ other_attributes_kept m
         (Tag "img" [("src", "resources/logo_78761c80.png")] [])
    /\ (is_link m = false ->
        label (Tag "img" [("src", "resources/logo_78761c80.png")] [])
        = label m).
Proof.
  apply (neutralize_links_frame "#" scenario_document [0]).
  vm_compute. left. reflexivity.
Defined.

(** ** The references found in CSS text *)

Lemma take_while_all (p : ascii -> bool) (s : string) :
  Str.all p (take_while p s) = true.
Proof.
  induction s as [|c s IH]; [reflexivity|]. cbn [take_while].
  destruct (p c) eqn:E; [|reflexivity]. cbn [Str.all]. now rewrite E.
Qed.

Lemma startswith_take_while (p : ascii -> bool) (s : string) :
  Str.startswith s (take_while p s) = true.
Proof.
  induction s as [|c s IH]; [reflexivity|]. cbn [take_while].
  destruct (p c); [|reflexivity]. cbn [Str.startswith].
  now rewrite Ascii.eqb_refl.
Qed.

Lemma drop_drop (n m : nat) (s : string) :
  Str.drop n (Str.drop m s) = Str.drop (m + n) s.
Proof.
  revert s. induction m as [|m IH]; intros s; [reflexivity|].
  destruct s as [|c s]; [now destruct n|]. cbn [Str.drop Nat.add]. apply IH.
Qed.

Lemma skip_quote_drop (s : string) :
  exists q, fst (skip_quote s) = Str.drop q s.
Proof.
  destruct s as [|c s]; [now exists 0|]. cbn [skip_quote].
  destruct (is_quote c); [now exists 1 | now exists 0].
Qed.

Lemma contains_drop (g s : string) (n : nat) :
  Str.startswith (Str.drop n s) g = true -> Str.contains g s = true.
Proof.
  revert n. induction s as [|c s IH]; intros n H.
  - now destruct n.
  - cbn [Str.contains]. destruct n as [|n].
    + cbn [Str.drop] in H. now rewrite H.
    + cbn [Str.drop] in H. rewrite (IH n H). apply orb_true_r.
Qed.

Lemma match_url_at_group (s g : string) (len : nat) :
  match_url_at s = Some (g, len) ->
  g <> EmptyString /\ Str.all url_char g = true
  /\ exists n, Str.startswith (Str.drop n s) g = true.
Proof.
  unfold match_url_at.
  destruct (Str.startswith s "url("); [|discriminate].
  destruct (skip_quote_drop (Str.drop 4 s)) as [q Hq].
  destruct (skip_quote (Str.drop 4 s)) as [r1 q1]. cbn [fst] in Hq.
  cbv zeta.
  destruct (String.eqb (take_while url_char r1) EmptyString) eqn:Eg;
    [discriminate|].
  destruct (skip_quote (Str.drop (String.length (take_while url_char r1)) r1))
    as [r2 q2].
  destruct (Str.startswith r2 ")"); [|discriminate].
  intros H. injection H as <- _. split.
  - now apply String.eqb_neq.
  - split; [apply take_while_all|].
    exists (4 + q). rewrite <- drop_drop, <- Hq.
    apply startswith_take_while.
Qed.

Lemma findall_url_aux_match (s : string) :
  forall skip g,
    In g (findall_url_aux s skip) ->
    exists n len, match_url_at (Str.drop n s) = Some (g, len).
Proof.
  induction s as [|c s IH]; intros skip g H; [contradiction H|].
  cbn [findall_url_aux] in H.
  assert (Hrest : forall k, In g (findall_url_aux s k) ->
                   exists n len,
                     match_url_at (Str.drop n (String c s)) = Some (g, len)).
  { intros k Hk. destruct (IH k g Hk) as (n & len & E).
    now exists (S n), len. }
  destruct skip as [|k]; [|now apply (Hrest k)].
  destruct (match_url_at (String c s)) as [[g0 len]|] eqn:E;
    [|now apply (Hrest 0)].
  destruct H as [<-|H]; [|now apply (Hrest (len - 1))].
  now exists 0, len.
Qed.

(** X19. Every reference that the pattern finds in a text is a piece of that
    text: it is not empty, it has no quote, no closing parenthesis and no
    white space, and it occurs in the text, so that replacing it there has
    something to replace. *)
Theorem findall_url_groups (s g : string) :
  In g (findall_url s) ->
  g <> EmptyString /\ Str.all url_char g = true /\ Str.contains g s = true.
Proof.
  intros H. apply findall_url_aux_match in H as (n & len & E).
  apply match_url_at_group in E as (Hne & Hall & m & Hm).
  split; [exact Hne|]. split; [exact Hall|].
  rewrite drop_drop in Hm. exact (contains_drop _ _ _ Hm).
Qed.

Lemma findall_url_groups_witness :
  "a.png" <> EmptyString /\ Str.all url_char "a.png" = true
  /\ Str.contains "a.png" "body{background:url('a.png')}" = true.
Proof.
  apply (findall_url_groups "body{background:url('a.png')}" "a.png").
  vm_compute. left. reflexivity.
Defined.

(** ** The bundled resources *)

Lemma bundle_filename_stem (url dir filename name ext : string) :
  raw_filename url = Ok filename ->
  posixpath.splitext (Str.rstrip Str.isspace (Str.filter safe_char filename))
  = (name, ext) ->
  create_local_filename url dir
  = Ok (posixpath.join dir (name ++ "_" ++ url_hash url ++ ext)).
Proof.
  intros Hr Hs. unfold create_local_filename, filename_stem.
  rewrite Hr. cbv zeta. rewrite Hs. reflexivity.
Qed.

(** X20. A URL whose path holds [xjs] and [_/ss/] is a bundle of styles: the
    local file is [google_bundle_styles], the hash of the URL and [.css],
    whatever the last segment of the path and its extension are, and also
    when the path holds [_/js/] as well. *)
Theorem bundle_styles_filename (url dir : string)
  (parsed : urllib.ParseResult) :
  urllib.urlparse url EmptyString = Ok parsed ->
  Str.contains "xjs" (urllib.path parsed) = true ->
  Str.contains "_/ss/" (urllib.path parsed) = true ->
  create_local_filename url dir
  = Ok (posixpath.join dir
          ("google_bundle_styles" ++ "_" ++ url_hash url ++ ".css")).
Proof.
  intros Hp Hx Hs.
  apply (bundle_filename_stem url dir "google_bundle_styles.css");
    [|vm_compute; reflexivity].
  unfold raw_filename. rewrite Hp. cbv zeta. rewrite Hx, Hs. reflexivity.
Qed.

Lemma bundle_styles_filename_witness :
  create_local_filename
    "https://www.google.com/xjs/_/ss/k=xjs.s.abc/m=sy1/d=1/rs=ACT90"
    resources_dir
  = Ok (posixpath.join resources_dir
          ("google_bundle_styles" ++ "_"
             ++ url_hash
                  "https://www.google.com/xjs/_/ss/k=xjs.s.abc/m=sy1/d=1/rs=ACT90"
             ++ ".css")).
Proof.
  apply (bundle_styles_filename
           "https://www.google.com/xjs/_/ss/k=xjs.s.abc/m=sy1/d=1/rs=ACT90"
           resources_dir
           (urllib.mkParseResult "https" "www.google.com"
              "/xjs/_/ss/k=xjs.s.abc/m=sy1/d=1/rs=ACT90" EmptyString
              EmptyString EmptyString));
    vm_compute; reflexivity.
Defined.

(** X21. A URL whose path holds [xjs] and [_/js/], and not [_/ss/], is a bundle
    of scripts: the local file is [google_bundle_scripts], the hash of the
    URL and [.js]. *)
Theorem bundle_scripts_filename (url dir : string)
  (parsed : urllib.ParseResult) :
  urllib.urlparse url EmptyString = Ok parsed ->
  Str.contains "xjs" (urllib.path parsed) = true ->
  Str.contains "_/ss/" (urllib.path parsed) = false ->
  Str.contains "_/js/" (urllib.path parsed) = true ->
  create_local_filename url dir
  = Ok (posixpath.join dir
          ("google_bundle_scripts" ++ "_" ++ url_hash url ++ ".js")).
Proof.
  intros Hp Hx Hs Hj.
  apply (bundle_filename_stem url dir "google_bundle_scripts.js");
    [|vm_compute; reflexivity].
  unfold raw_filename. rewrite Hp. cbv zeta. rewrite Hx, Hs, Hj. reflexivity.
Qed.

Lemma bundle_scripts_filename_witness :
  create_local_filename
    "https://www.google.com/xjs/_/js/k=xjs.s.en/m=cdos/d=1" resources_dir
  = Ok (posixpath.join resources_dir
          ("google_bundle_scripts" ++ "_"
             ++ url_hash "https://www.google.com/xjs/_/js/k=xjs.s.en/m=cdos/d=1"
             ++ ".js")).
Proof.
  apply (bundle_scripts_filename
           "https://www.google.com/xjs/_/js/k=xjs.s.en/m=cdos/d=1"
           resources_dir
           (urllib.mkParseResult "https" "www.google.com"
              "/xjs/_/js/k=xjs.s.en/m=cdos/d=1" EmptyString EmptyString
              EmptyString));
    vm_compute; reflexivity.
Defined.

(** ** The cache and the local files *)

Lemma dict_mem_set (k k' v : string) (d : Dict.t) :
  Dict.mem k d = true -> Dict.mem k (Dict.set k' v d) = true.
Proof.
  unfold Dict.mem. intros H.
  destruct (String.eqb_spec k k') as [->|N].
  - now rewrite dict_get_set_same.
  - now rewrite dict_get_set_other.
Qed.

Lemma sound_step_refl (st : State) : sound_step st st.
Proof. split; [reflexivity|]. split; [intros k H; exact H | auto]. Qed.

Lemma sound_step_trans (a b c : State) :
  sound_step a b -> sound_step b c -> sound_step a c.
Proof.
  intros (C1 & G1 & S1) (C2 & G2 & S2). split; [congruence|].
  split; [intros k H; apply G2, G1, H | auto].
Qed.

(** a step that writes files at most *)
Lemma sound_step_files (st st' : State) :
  cwd st' = cwd st -> files_grow st st' ->
  downloaded_resources st' = downloaded_resources st ->
  sound_step st st'.
Proof.
  intros C G D. split; [exact C|]. split; [exact G|].
  intros Hs url rel H. rewrite D in H.
  destruct (Hs url rel H) as (local_path & Hl & Hm).
  exists local_path. split; [exact Hl|]. rewrite C. now apply G.
Qed.

Lemma files_grow_same (st st' : State) :
  files st' = files st -> files_grow st st'.
Proof. intros E k H. now rewrite E. Qed.

Lemma files_grow_set (st st' : State) (k v : string) :
  files st' = Dict.set k v (files st) -> files_grow st st'.
Proof. intros E k' H. rewrite E. now apply dict_mem_set. Qed.

Lemma fetch_and_record_sound_step (url output_file : string) (st : State) :
  sound_step st (final_state (fetch_and_record url output_file st)).
Proof.
  destruct (fetch_and_record_final url output_file st)
    as (Hc & _ & _ & Hf & Hd).
  assert (G : files_grow st (final_state (fetch_and_record url output_file st))).
  { destruct Hf as [Hf|(local_path & content & _ & Hf)];
      [now apply files_grow_same | now apply (files_grow_set _ _ _ _ Hf)]. }
  destruct Hd as [Hd|(rel & local_path & content & Hl & Hw & Hd)].
  - now apply sound_step_files.
  - split; [exact Hc|]. split; [exact G|].
    intros Hs k v H. rewrite Hd in H. rewrite Hc.
    destruct (String.eqb_spec k url) as [->|N].
    + exists local_path. split; [exact Hl|]. rewrite Hw.
      unfold Dict.mem. now rewrite dict_get_set_same.
    + rewrite dict_get_set_other in H by exact N.
      destruct (Hs k v H) as (lp & Hlp & Hm).
      exists lp. split; [exact Hlp | now apply G].
Qed.

(** X22. A run never loses a file: every file that existed before it exists
    after it. And the cache stays sound: if, before the run, every URL of
    the cache had its local file (with an empty cache for one), then after
    the run every URL of the cache has its local file, the one that
    [create_local_filename] names for it in the resources directory. *)
Theorem process_all_sound_step (html_parser : string -> document)
  (prettify : document -> string) (jobs : list Job) (st : State) :
  files_grow st (final_state (process_all html_parser prettify jobs st))
  /\ (cache_sound st ->
      cache_sound (final_state (process_all html_parser prettify jobs st))).
Proof.
  apply (process_all_preserves sound_step sound_step_refl sound_step_trans
           (fun _ => True)); try (intros; exact I).
  - intros line s. now apply sound_step_files; [|apply files_grow_same|].
  - intros doc s. now apply sound_step_files; [|apply files_grow_same|].
  - intros url output_file s _. apply fetch_and_record_sound_step.
  - intros name content s _.
    apply sound_step_files; [reflexivity| |reflexivity].
    now apply (files_grow_set _ _ (posixpath.abspath (cwd s) name) content).
  - intros s. split; [reflexivity|]. split; [now apply files_grow_same|].
    intros _ url rel H. discriminate H.
Qed.

Lemma process_all_sound_step_witness :
  files_grow scenario_state
    (final_state
       (process_all scenario_parser scenario_prettify [scenario_job]
          scenario_state))
  /\ cache_sound
       (final_state
          (process_all scenario_parser scenario_prettify [scenario_job]
             scenario_state)).
Proof.
  destruct (process_all_sound_step scenario_parser scenario_prettify
              [scenario_job] scenario_state) as [G S].
  split; [exact G|]. apply S. intros url rel H. discriminate H.
Defined.

(** ** When the file name cannot be made *)

Lemma mem_take_false (c : ascii) (n : nat) (s : string) :
  Str.mem c s = false -> Str.mem c (Str.take n s) = false.
Proof.
  revert s. induction n as [|n IH]; intros [|d s]; simpl; auto.
  intros H. apply orb_false_iff in H as [Hd Hs]. now rewrite Hd, IH.
Qed.

Lemma mem_drop_false (c : ascii) (n : nat) (s : string) :
  Str.mem c s = false -> Str.mem c (Str.drop n s) = false.
Proof.
  revert s. induction n as [|n IH]; intros [|d s]; simpl; auto.
  intros H. apply orb_false_iff in H as [Hd Hs]. now apply IH.
Qed.

Lemma mem_lstrip_false (c : ascii) (p : ascii -> bool) (s : string) :
  Str.mem c s = false -> Str.mem c (Str.lstrip p s) = false.
Proof.
  induction s as [|d s IH]; [auto|]. cbn [Str.lstrip].
  destruct (p d); [|auto]. cbn [Str.mem]. intros H.
  apply orb_false_iff in H as [_ Hs]. now apply IH.
Qed.

Lemma mem_filter_false (c : ascii) (p : ascii -> bool) (s : string) :
  Str.mem c s = false -> Str.mem c (Str.filter p s) = false.
Proof.
  induction s as [|d s IH]; [auto|]. cbn [Str.filter Str.mem]. intros H.
  apply orb_false_iff in H as [Hd Hs].
  destruct (p d); [cbn [Str.mem]; rewrite Hd|]; now apply IH.
Qed.

Lemma urlsplit_no_bracket (url scheme : string) :
  Str.mem "[" url = false -> Str.mem "]" url = false ->
  exists r, urllib.urlsplit url scheme = Ok r.
Proof.
  intros Hl Hr. unfold urllib.urlsplit. cbv zeta.
  set (u := urllib.remove_unsafe
              (Str.lstrip urllib.c0_control_or_space url)).
  assert (Hul : forall c, Str.mem c url = false -> Str.mem c u = false).
  { intros c H. now apply mem_filter_false, mem_lstrip_false. }
  match goal with |- context [let '(a, b) := ?p in _] =>
    destruct p as [sch u3] eqn:E end.
  assert (H3 : forall c, Str.mem c url = false -> Str.mem c u3 = false).
  { intros c H. specialize (Hul c H).
    destruct (Str.find ":" u) as [[|i]|]; destruct u as [|c0 u'];
      try (injection E as _ <-; exact Hul).
    destruct (Str.isalpha c0
              && Str.all urllib.scheme_char (Str.take (S i) (String c0 u')));
      injection E as _ <-;
      [exact (mem_drop_false c (S (S i)) (String c0 u') Hul) | exact Hul]. }
  clear E.
  destruct (String.eqb (Str.take 2 u3) "//").
  - unfold urllib.splitnetloc2. cbv zeta.
    rewrite !mem_take_false by (apply mem_drop_false, H3; assumption).
    cbn [andb orb negb].
    repeat match goal with |- context [let '(a, b) := ?p in _] =>
      destruct p end.
    eexists. reflexivity.
  - repeat match goal with |- context [let '(a, b) := ?p in _] =>
      destruct p end.
    eexists. reflexivity.
Qed.

(** X23. [create_local_filename] raises for malformed bracketed hosts only: for
    a URL without square brackets it always returns a path. *)
Theorem create_local_filename_total (url dir : string) :
  Str.mem "[" url = false -> Str.mem "]" url = false ->
  exists local_path, create_local_filename url dir = Ok local_path.
Proof.
  intros Hl Hr.
  unfold create_local_filename, filename_stem, raw_filename, urllib.urlparse.
  destruct (urlsplit_no_bracket url EmptyString Hl Hr)
    as ([[[[sch netloc] path] query] fragment] & ->).
  match goal with |- context [let '(a, b) := ?p in _] => destruct p end.
  cbv zeta.
  match goal with |- context [posixpath.splitext ?f] =>
    destruct (posixpath.splitext f) end.
  eexists. reflexivity.
Qed.

Lemma create_local_filename_total_witness :
  exists local_path,
    create_local_filename "https://example.com/a/../b.png" resources_dir
    = Ok local_path.
Proof.
  apply (create_local_filename_total "https://example.com/a/../b.png"
           resources_dir); vm_compute; reflexivity.
Defined.

Lemma urlparse_no_bracket (url scheme : string) :
  Str.mem "[" url = false -> Str.mem "]" url = false ->
  exists r, urllib.urlparse url scheme = Ok r.
Proof.
  intros Hl Hr. unfold urllib.urlparse.
  destruct (urlsplit_no_bracket url scheme Hl Hr)
    as ([[[[sch netloc] path] query] fragment] & ->).
  match goal with |- context [let '(a, b) := ?p in _] => destruct p end.
  eexists. reflexivity.
Qed.

Lemma urljoin_no_bracket (base url : string) :
  Str.mem "[" base = false -> Str.mem "]" base = false ->
  Str.mem "[" url = false -> Str.mem "]" url = false ->
  exists r, urllib.urljoin base url = Ok r.
Proof.
  intros Hbl Hbr Hl Hr. unfold urllib.urljoin.
  destruct (negb (posixpath.nonempty base)); [eexists; reflexivity|].
  destruct (negb (posixpath.nonempty url)); [eexists; reflexivity|].
  destruct (urlparse_no_bracket base EmptyString Hbl Hbr) as [b ->].
  destruct (urlparse_no_bracket url (urllib.scheme b) Hl Hr) as [u ->].
  cbv zeta.
  repeat match goal with |- context [if ?c then Ok _ else _] =>
    destruct c; [eexists; reflexivity|] end.
  eexists. reflexivity.
Qed.

(** X24. A reference without square brackets, resolved against a base URL
    without square brackets, never makes the program raise: the resolution
    of an attribute value and the resolution of a reference of CSS text
    both return. *)
Theorem references_resolve (base_url url : string) :
  Str.mem "[" base_url = false -> Str.mem "]" base_url = false ->
  Str.mem "[" url = false -> Str.mem "]" url = false ->
  (exists r, resolve_attribute_url base_url url = Ok r)
  /\ (exists r, resolve_css_url base_url url = Ok r).
Proof.
  intros Hbl Hbr Hl Hr.
  destruct (urljoin_no_bracket base_url url Hbl Hbr Hl Hr) as [r Hj].
  split.
  - unfold resolve_attribute_url. rewrite Hj.
    destruct (Str.startswith_any url
                ["data:"; "javascript:"; "mailto:"; "tel:"; "#"]);
      [eexists; reflexivity|].
    destruct (Str.startswith url "/").
    + destruct (negb (Str.startswith_any r ["http://"; "https://"; "//"]));
        eexists; reflexivity.
    + destruct (negb (Str.startswith_any url ["http://"; "https://"; "//"])).
      * destruct (negb (Str.startswith_any r ["http://"; "https://"; "//"]));
          eexists; reflexivity.
      * destruct (negb (Str.startswith_any url ["http://"; "https://"; "//"]));
          eexists; reflexivity.
  - unfold resolve_css_url. rewrite Hj.
    destruct (Str.startswith url "//"); [eexists; reflexivity|].
    destruct (Str.startswith url "/"); [eexists; reflexivity|].
    destruct (negb (Str.startswith_any url ["http://"; "https://"]));
      eexists; reflexivity.
Qed.

Lemma references_resolve_witness :
  (exists r, resolve_attribute_url "https://example.com" "/logo.png" = Ok r)
  /\ (exists r, resolve_css_url "https://example.com" "/logo.png" = Ok r).
Proof.
  apply (references_resolve "https://example.com" "/logo.png");
    vm_compute; reflexivity.
Defined.

(** ** A reference that the cache holds *)

(** X25. In the pass over the resource attributes, a reference whose URL is in
    the cache costs nothing: no request is made, no file is written, nothing
    is printed and the cache is unchanged; the attribute, read back at the
    same place in the document, is the local path of the cache. *)
Theorem cached_attribute_not_requested
  (base_url output_file attr : string) (p : path) (st : State)
  (name : string) (attrs : Dict.t) (kids : list node)
  (url resolved local : string) :
  get_node (soup st) p = Some (Tag name attrs kids) ->
  Dict.get attr attrs = Some url ->
  resolve_attribute_url base_url url = Ok (Some resolved) ->
  Dict.get resolved (downloaded_resources st) = Some local ->
  exists st',
    localize_attribute base_url output_file attr p st = Return tt st'
    /\ get_node (soup st') p = Some (Tag name (Dict.set attr local attrs) kids)
    /\ node_attr attr (Tag name (Dict.set attr local attrs) kids) = Some local
    /\ requests st' = requests st /\ files st' = files st
    /\ stdout st' = stdout st
    /\ downloaded_resources st' = downloaded_resources st.
Proof.
  intros Hget Hattr Hres Hhit.
  unfold localize_attribute, bind, get_state. cbn beta iota.
  rewrite Hget, Hattr, Hres. cbn [lift ret]. rewrite Hhit.
  unfold set_soup. eexists. split; [reflexivity|].
  cbn [soup requests files stdout downloaded_resources node_attr].
  split; [exact (get_node_update _ _ _ _ Hget)|].
  split; [apply dict_get_set_same|]. repeat split.
Qed.

Lemma cached_attribute_not_requested_witness :
  exists st',
    localize_attribute "https://example.com" "out.html" "src" [0]
      (with_store [Tag "img" [("src", "/logo.png")] []]
         [("https://example.com/logo.png", "resources/logo_78761c80.png")]
         scenario_state)
    = Return tt st'
    /\ get_node (soup st') [0]
       = Some (Tag "img"
                 (Dict.set "src" "resources/logo_78761c80.png"
                    [("src", "/logo.png")]) [])
    /\ node_attr "src"
         (Tag "img"
            (Dict.set "src" "resources/logo_78761c80.png"
               [("src", "/logo.png")]) [])
       = Some "resources/logo_78761c80.png"
    /\ requests st' = requests scenario_state
    /\ files st' = files scenario_state
    /\ stdout st' = stdout scenario_state
    /\ downloaded_resources st'
       = [("https://example.com/logo.png", "resources/logo_78761c80.png")].
Proof.
  apply (cached_attribute_not_requested "https://example.com" "out.html"
           "src" [0]
           (with_store [Tag "img" [("src", "/logo.png")] []]
              [("https://example.com/logo.png",
                "resources/logo_78761c80.png")] scenario_state)
           "img" [("src", "/logo.png")] [] "/logo.png"
           "https://example.com/logo.png" "resources/logo_78761c80.png");
    vm_compute; reflexivity.
Defined.

(** ** The document around the links *)

Lemma map_map_nth_all {A B : Type} (g : A -> B) (f : A -> A) (l : list A)
  (i : nat) :
  (forall x, g (f x) = g x) -> map g (map_nth i f l) = map g l.
Proof.
  intros H. revert i. induction l as [|y l IH]; intros [|i]; simpl;
    try reflexivity.
  - now rewrite H.
  - now rewrite IH.
Qed.

Lemma dict_del_set_same (k v : string) (d : Dict.t) :
  Dict.del k (Dict.set k v d) = Dict.del k d.
Proof.
  unfold Dict.del. induction d as [|[k' v'] d IH]; simpl.
  - now rewrite String.eqb_refl.
  - destruct (String.eqb k k') eqn:E; simpl; rewrite E; simpl;
      [reflexivity | now rewrite IH].
Qed.

Lemma dict_del_comm (a b : string) (d : Dict.t) :
  Dict.del a (Dict.del b d) = Dict.del b (Dict.del a d).
Proof.
  unfold Dict.del. induction d as [|[k v] d IH]; simpl; [reflexivity|].
  destruct (String.eqb b k) eqn:Eb, (String.eqb a k) eqn:Ea; simpl;
    rewrite ?Ea, ?Eb; simpl; now rewrite IH.
Qed.

Lemma dict_del_idempotent (a : string) (d : Dict.t) :
  Dict.del a (Dict.del a d) = Dict.del a d.
Proof.
  unfold Dict.del. induction d as [|[k v] d IH]; simpl; [reflexivity|].
  destruct (String.eqb a k) eqn:E; simpl; rewrite ?E; simpl;
    now rewrite IH.
Qed.

Lemma without_link_attributes_neutralize (r : string) (n : node) :
  without_link_attributes (neutralize_link r n) = without_link_attributes n.
Proof.
  destruct n as [s|name attrs kids]; [reflexivity|].
  cbn [neutralize_link without_link_attributes]. f_equal.
  destruct (Dict.mem "ping" (Dict.set "href" r attrs)).
  - rewrite (dict_del_comm "href" "ping"), dict_del_idempotent.
    now rewrite dict_del_set_same.
  - now rewrite dict_del_set_same.
Qed.

Lemma without_link_attributes_update (f : node -> node) :
  (forall n, without_link_attributes (f n) = without_link_attributes n) ->
  forall p doc,
    map without_link_attributes (update_node doc p f)
    = map without_link_attributes doc.
Proof.
  intros Hf. induction p as [|i q IH]; intros doc; [reflexivity|].
  cbn [update_node]. apply map_map_nth_all. intros n.
  destruct q as [|j q']; [apply Hf|].
  destruct n as [s|name attrs kids]; [reflexivity|].
  cbn [without_link_attributes]. f_equal. apply IH.
Qed.

(** X26. The loop over the links changes [href] and [ping] attributes and
    nothing else: without the [href] and [ping] attributes of its elements,
    the document it leaves is the document it started from, with the same
    texts, the same elements and children, and the same other attributes in
    the same order. *)
Theorem neutralize_links_content (r : string) (doc : document) :
  map without_link_attributes (neutralize_links r doc)
  = map without_link_attributes doc.
Proof.
  unfold neutralize_links.
  generalize (find_paths is_link doc) as ps.
  intros ps. revert doc. induction ps as [|p ps IH]; intros doc;
    [reflexivity|].
  cbn [fold_left]. rewrite IH.
  apply without_link_attributes_update.
  apply without_link_attributes_neutralize.
Qed.
